(** * WorkPlannerApp: the note store, the import/export path and the focus timer

    A shallow embedding of [src/app.js].  The class [WorkPlannerApp] keeps all
    of its data in the fields of one object and in the browser's
    [localStorage]; every method is embedded as a function on a record
    [State] that holds those fields together with the part of the host the
    methods act on (the storage, the armed intervals, the page elements that
    gate an effect and the notifications shown).

    Conventions of the embedding:
    - a JavaScript string is the list of its UTF-16 code units, so that
      [length] is the [.length] of the source;
    - an ISO-8601 time stamp ([new Date().toISOString()]) is represented by
      the instant it denotes, in milliseconds since the epoch, on which the
      rendering is injective and monotone;
    - [JSON.stringify] followed by [JSON.parse] is the identity on the typed
      records below, so [localStorage] holds the records themselves;
    - writes to [localStorage] succeed;
    - the fields [currentNoteId] and [currentFolder] are read by the
      presentation methods only and are left out;
    - the records are those of a store of the shapes the application
      writes: every field holds a value of its type.  A storage or an
      imported file that holds a value of another shape under a key (an
      object where an array is expected, a note that is [null]) is outside
      the records; the source stores such a value as it is and may throw
      where it first uses it;
    - a number of the source that holds an integer is that integer.  The
      source computes on doubles, which is exact as long as the integers
      stay within 2^53 in magnitude; the statements on the countdown carry
      that bound;
    - the calls into the page (the DOM and the libraries it loads) return
      normally. *)

From Stdlib Require Import ZArith QArith Lia.
From stdpp Require Import prelude strings pretty.

#[local] Open Scope Z_scope.

(** ** Strings *)

Definition jsstring : Type := list N.

(** An ASCII literal of the source as code units. *)
Definition js (s : string) : jsstring :=
  Ascii.N_of_ascii <$> String.list_ascii_of_string s.

(** [Number.prototype.toString] on an integer (as [Date.now()] returns). *)
Definition toString (z : Z) : jsstring := js (pretty z).

(** The class [\s] of a regular expression: WhiteSpace and LineTerminator of
    ECMAScript, all of them single code units. *)
Definition isWhiteSpace (c : N) : bool :=
  bool_decide (c ∈ [9; 10; 11; 12; 13; 32; 160; 5760; 8232; 8233; 8239; 8287;
                    12288; 65279]%N)
  || ((8192 <=? c)%N && (c <=? 8202)%N).

(** [str.replace(/\s+/g, '-')]: the matches of [\s+] are the maximal runs of
    white space, taken from left to right; [in_run] tells that the unit
    before belongs to the run being replaced. *)
Fixpoint replace_ws_from (in_run : bool) (s : jsstring) : jsstring :=
  match s with
  | [] => []
  | c :: s' =>
      if isWhiteSpace c
      then (if in_run then replace_ws_from true s'
            else 45%N :: replace_ws_from true s')
      else c :: replace_ws_from false s'
  end.

Definition replace_ws (s : jsstring) : jsstring := replace_ws_from false s.

(** ** Records of the data model *)

Definition timestamp : Type := Z.

Module Note.
Record t : Type := mk {
  id : jsstring;
  title : jsstring;
  content : jsstring;
  tags : list jsstring;
  folder : jsstring;
  starred : bool;
  createdAt : timestamp;
  updatedAt : timestamp;
  wordCount : Z
}.
End Note.

(** The [updates] argument of [updateNote]: an object holding any subset of
    the keys of a note. *)
Module Updates.
Record t : Type := mk {
  id : option jsstring;
  title : option jsstring;
  content : option jsstring;
  tags : option (list jsstring);
  folder : option jsstring;
  starred : option bool;
  createdAt : option timestamp;
  updatedAt : option timestamp;
  wordCount : option Z
}.
Definition empty : t := mk None None None None None None None None None.
End Updates.

Module Folder.
Record t : Type := mk {
  id : jsstring;
  name : jsstring;
  color : jsstring;
  count : Z
}.
End Folder.

Module Tag.
Record t : Type := mk {
  name : jsstring;
  count : Z
}.
End Tag.

Module Task.
Record t : Type := mk {
  id : jsstring;
  title : jsstring;
  description : jsstring;
  column : jsstring;
  createdAt : timestamp;
  dueDate : option timestamp;
  priority : jsstring;
  tags : list jsstring
}.
End Task.

Module Settings.
Record editor_t : Type := mk_editor {
  fontSize : Z;
  lineHeight : Q;
  wordWrap : bool
}.
Record pomodoro_t : Type := mk_pomodoro {
  workDuration : option Z;
  breakDuration : option Z
}.
Record t : Type := mk {
  theme : option jsstring;
  editor : option editor_t;
  pomodoro : option pomodoro_t;
  autoSave : option bool
}.
(** The object [{}]. *)
Definition empty : t := mk None None None None.
(** [Object.keys(s).length === 0] *)
Definition is_empty (s : t) : bool :=
  match s with
  | mk None None None None => true
  | _ => false
  end.
End Settings.

(** ** The host: storage, page, intervals, notifications *)

(** The five keys of [localStorage], each absent ([None]) or holding the
    serialisation of a collection of the shape the application writes
    there.  Text under a key that does not parse, or that parses to a value
    of another shape, is outside this record ([loadData] has no [try]: on
    such text the constructor throws). *)
Record Storage : Type := mkStorage {
  workplanner_notes : option (list Note.t);
  workplanner_folders : option (list Folder.t);
  workplanner_tasks : option (list Task.t);
  workplanner_settings : option Settings.t;
  workplanner_tags : option (list Tag.t)
}.

Definition emptyStorage : Storage := mkStorage None None None None None.

(** The elements of the page whose presence gates an effect on the state:
    [renderTags] returns early without [#tagsCloud], [showNotification]
    without [#notificationArea]. *)
Record Document : Type := mkDocument {
  tagsCloud : bool;
  notificationArea : bool
}.

Inductive Mode : Type := work | break.

Inductive Kind : Type := info | success | error | warning.

(** The messages passed to [showNotification] by the embedded methods. *)
Inductive Message : Type :=
  | WorkTimeOver
  | BreakTimeOver
  | ExportDone
  | ImportDone
  | ImportFailed.

Record State : Type := mkState {
  notes : list Note.t;
  folders : list Folder.t;
  tags : list Tag.t;
  tasks : list Task.t;
  settings : Settings.t;
  pomodoroTimer : option nat;
  pomodoroSeconds : Z;
  pomodoroRunning : bool;
  pomodoroMode : Mode;
  localStorage : Storage;
  document : Document;
  intervals : list nat;
  nextInterval : nat;
  notifications : list (Message * Kind)
}.

Definition set_notes (v : list Note.t) (s : State) : State :=
  mkState v (folders s) (tags s) (tasks s) (settings s) (pomodoroTimer s)
    (pomodoroSeconds s) (pomodoroRunning s) (pomodoroMode s) (localStorage s)
    (document s) (intervals s) (nextInterval s) (notifications s).

Definition set_folders (v : list Folder.t) (s : State) : State :=
  mkState (notes s) v (tags s) (tasks s) (settings s) (pomodoroTimer s)
    (pomodoroSeconds s) (pomodoroRunning s) (pomodoroMode s) (localStorage s)
    (document s) (intervals s) (nextInterval s) (notifications s).

Definition set_tags (v : list Tag.t) (s : State) : State :=
  mkState (notes s) (folders s) v (tasks s) (settings s) (pomodoroTimer s)
    (pomodoroSeconds s) (pomodoroRunning s) (pomodoroMode s) (localStorage s)
    (document s) (intervals s) (nextInterval s) (notifications s).

Definition set_tasks (v : list Task.t) (s : State) : State :=
  mkState (notes s) (folders s) (tags s) v (settings s) (pomodoroTimer s)
    (pomodoroSeconds s) (pomodoroRunning s) (pomodoroMode s) (localStorage s)
    (document s) (intervals s) (nextInterval s) (notifications s).

Definition set_settings (v : Settings.t) (s : State) : State :=
  mkState (notes s) (folders s) (tags s) (tasks s) v (pomodoroTimer s)
    (pomodoroSeconds s) (pomodoroRunning s) (pomodoroMode s) (localStorage s)
    (document s) (intervals s) (nextInterval s) (notifications s).

Definition set_pomodoroTimer (v : option nat) (s : State) : State :=
  mkState (notes s) (folders s) (tags s) (tasks s) (settings s) v
    (pomodoroSeconds s) (pomodoroRunning s) (pomodoroMode s) (localStorage s)
    (document s) (intervals s) (nextInterval s) (notifications s).

Definition set_pomodoroSeconds (v : Z) (s : State) : State :=
  mkState (notes s) (folders s) (tags s) (tasks s) (settings s)
    (pomodoroTimer s) v (pomodoroRunning s) (pomodoroMode s) (localStorage s)
    (document s) (intervals s) (nextInterval s) (notifications s).

Definition set_pomodoroRunning (v : bool) (s : State) : State :=
  mkState (notes s) (folders s) (tags s) (tasks s) (settings s)
    (pomodoroTimer s) (pomodoroSeconds s) v (pomodoroMode s) (localStorage s)
    (document s) (intervals s) (nextInterval s) (notifications s).

Definition set_pomodoroMode (v : Mode) (s : State) : State :=
  mkState (notes s) (folders s) (tags s) (tasks s) (settings s)
    (pomodoroTimer s) (pomodoroSeconds s) (pomodoroRunning s) v
    (localStorage s) (document s) (intervals s) (nextInterval s)
    (notifications s).

Definition set_localStorage (v : Storage) (s : State) : State :=
  mkState (notes s) (folders s) (tags s) (tasks s) (settings s)
    (pomodoroTimer s) (pomodoroSeconds s) (pomodoroRunning s) (pomodoroMode s)
    v (document s) (intervals s) (nextInterval s) (notifications s).

Definition set_intervals (v : list nat) (n : nat) (s : State) : State :=
  mkState (notes s) (folders s) (tags s) (tasks s) (settings s)
    (pomodoroTimer s) (pomodoroSeconds s) (pomodoroRunning s) (pomodoroMode s)
    (localStorage s) (document s) v n (notifications s).

Definition set_notifications (v : list (Message * Kind)) (s : State) : State :=
  mkState (notes s) (folders s) (tags s) (tasks s) (settings s)
    (pomodoroTimer s) (pomodoroSeconds s) (pomodoroRunning s) (pomodoroMode s)
    (localStorage s) (document s) (intervals s) (nextInterval s) v.

(** [localStorage.setItem] on each of the five keys. *)
Definition setItem_notes (v : list Note.t) (st : Storage) : Storage :=
  mkStorage (Some v) (workplanner_folders st) (workplanner_tasks st)
    (workplanner_settings st) (workplanner_tags st).

Definition setItem_folders (v : list Folder.t) (st : Storage) : Storage :=
  mkStorage (workplanner_notes st) (Some v) (workplanner_tasks st)
    (workplanner_settings st) (workplanner_tags st).

Definition setItem_tasks (v : list Task.t) (st : Storage) : Storage :=
  mkStorage (workplanner_notes st) (workplanner_folders st) (Some v)
    (workplanner_settings st) (workplanner_tags st).

Definition setItem_settings (v : Settings.t) (st : Storage) : Storage :=
  mkStorage (workplanner_notes st) (workplanner_folders st)
    (workplanner_tasks st) (Some v) (workplanner_tags st).

Definition setItem_tags (v : list Tag.t) (st : Storage) : Storage :=
  mkStorage (workplanner_notes st) (workplanner_folders st)
    (workplanner_tasks st) (workplanner_settings st) (Some v).

(** ** Presentation calls

    [showNotification] appends to the page when its area exists.  The
    methods [updateStats], [renderFolders], [renderNotes] and
    [updatePomodoroDisplay] only read the state and write to the page; they
    are kept as identities so that the callers read like the source. *)

Definition showNotification (m : Message) (k : Kind) (s : State) : State :=
  if notificationArea (document s)
  then set_notifications (notifications s ++ [(m, k)]) s
  else s.

Definition updateStats (s : State) : State := s.
Definition renderFolders (s : State) : State := s.
Definition renderNotes (s : State) : State := s.
Definition updatePomodoroDisplay (s : State) : State := s.

(** ** Array helpers *)

(** [Array.prototype.findIndex]; [None] stands for the result [-1]. *)
Fixpoint findIndex {A : Type} (p : A -> bool) (l : list A) : option nat :=
  match l with
  | [] => None
  | x :: l' => if p x then Some O else S <$> findIndex p l'
  end.

(** [Array.prototype.sort] with a comparator: the order is stable, so with a
    comparator that is a total preorder the result is the one of a stable
    insertion sort, where [a] stays before [b] when [cmp a b <= 0]. *)
Fixpoint sort_insert {A : Type} (cmp : A -> A -> Z) (x : A) (l : list A)
  : list A :=
  match l with
  | [] => [x]
  | y :: l' => if cmp x y <=? 0 then x :: y :: l'
               else y :: sort_insert cmp x l'
  end.

Fixpoint Array_sort {A : Type} (cmp : A -> A -> Z) (l : list A) : list A :=
  match l with
  | [] => []
  | x :: l' => sort_insert cmp x (Array_sort cmp l')
  end.

(** [arr.slice(0, limit)]: a negative [limit] counts from the end. *)
Definition slice0 {A : Type} (limit : Z) (l : list A) : list A :=
  if limit <? 0
  then take (Z.to_nat (Z.max (Z.of_nat (length l) + limit) 0)) l
  else take (Z.to_nat limit) l.

(** Truthiness of a string: the empty string is falsy. *)
Definition truthy (s : jsstring) : bool :=
  match s with
  | [] => false
  | _ :: _ => true
  end.

(** ** Persistence *)

Definition saveFolders (s : State) : State :=
  set_localStorage (setItem_folders (folders s) (localStorage s)) s.

Definition saveTasks (s : State) : State :=
  set_localStorage (setItem_tasks (tasks s) (localStorage s)) s.

Definition saveSettings (s : State) : State :=
  set_localStorage (setItem_settings (settings s) (localStorage s)) s.

Definition saveTags (s : State) : State :=
  set_localStorage (setItem_tags (tags s) (localStorage s)) s.

(** ** Folders *)

(** [this.notes.filter(note => note.folder === folder.id).length] *)
Definition notes_in (ns : list Note.t) (fid : jsstring) : Z :=
  Z.of_nat (length (filter (fun n => Note.folder n = fid) ns)).

Definition recount (ns : list Note.t) (f : Folder.t) : Folder.t :=
  Folder.mk (Folder.id f) (Folder.name f) (Folder.color f)
    (notes_in ns (Folder.id f)).

Definition updateFolderCounts (s : State) : State :=
  saveFolders (set_folders (recount (notes s) <$> folders s) s).

Definition saveNotes (s : State) : State :=
  updateFolderCounts
    (updateStats
       (set_localStorage (setItem_notes (notes s) (localStorage s)) s)).

Section CreateFolder.
(** [String.prototype.toLowerCase] follows the case tables of Unicode,
    which the source does not hold: it is a parameter here. *)
Variable toLowerCase : jsstring -> jsstring.

Definition slugify (name : jsstring) : jsstring :=
  replace_ws (toLowerCase name).

Definition createFolder (name color : jsstring) (s : State)
  : Folder.t * State :=
  let folder := Folder.mk (slugify name) name color 0 in
  (folder, saveFolders (set_folders (folders s ++ [folder]) s)).
End CreateFolder.

(** ** Tags *)

Definition named (tag : jsstring) (t : Tag.t) : bool :=
  bool_decide (Tag.name t = tag).

Definition bump (t : Tag.t) : Tag.t := Tag.mk (Tag.name t) (Tag.count t + 1).

(** The body of the [forEach] of [updateTags]. *)
Definition updateTag (ts : list Tag.t) (tag : jsstring) : list Tag.t :=
  if negb (existsb (named tag) ts)
  then ts ++ [Tag.mk tag 1]
  else match findIndex (named tag) ts with
       | Some i => alter bump i ts
       | None => ts
       end.

Definition updateTags (newTags : list jsstring) (s : State) : State :=
  saveTags (set_tags (foldl updateTag (tags s) newTags) s).

(** The comparator [(a, b) => b.count - a.count]. *)
Definition by_count_desc (a b : Tag.t) : Z := Tag.count b - Tag.count a.

(** [sort] works in place on [this.tags]; the result is the slice. *)
Definition getPopularTags (limit : Z) (s : State) : list Tag.t * State :=
  let sorted := Array_sort by_count_desc (tags s) in
  (slice0 limit sorted, set_tags sorted s).

Definition renderTags (s : State) : State :=
  if tagsCloud (document s) then snd (getPopularTags 15 s) else s.

(** ** Notes *)

(** [tid], [tc] and [tu] are the three readings of the clock, for the id
    ([Date.now()]), [createdAt] and [updatedAt]. *)
Definition createNote (tid : Z) (tc tu : timestamp)
    (title content : jsstring) (tags : list jsstring) (folder : jsstring)
    (s : State) : Note.t * State :=
  let note :=
    Note.mk (toString tid) title content tags folder false tc tu
      (Z.of_nat (length content)) in
  let s1 := saveNotes (set_notes (note :: notes s) s) in
  (note, updateTags tags s1).

Definition has_id (i : jsstring) (n : Note.t) : bool :=
  bool_decide (Note.id n = i).

(** The object literal of [updateNote]: the spread of the note, then the
    spread of [updates], then the two keys written last. *)
Definition merge (now : timestamp) (old : Note.t) (u : Updates.t) : Note.t :=
  Note.mk
    (default (Note.id old) (Updates.id u))
    (default (Note.title old) (Updates.title u))
    (default (Note.content old) (Updates.content u))
    (default (Note.tags old) (Updates.tags u))
    (default (Note.folder old) (Updates.folder u))
    (default (Note.starred old) (Updates.starred u))
    (default (Note.createdAt old) (Updates.createdAt u))
    now
    (match Updates.content u with
     | Some c => if truthy c then Z.of_nat (length c)
                 else Z.of_nat (length (Note.content old))
     | None => Z.of_nat (length (Note.content old))
     end).

Definition updateNote (now : timestamp) (i : jsstring) (updates : Updates.t)
    (s : State) : State :=
  match findIndex (has_id i) (notes s) with
  | Some index =>
      match notes s !! index with
      | Some old =>
          let s1 :=
            saveNotes (set_notes (<[index := merge now old updates]> (notes s)) s) in
          match Updates.tags updates with
          | Some ts => updateTags ts s1
          | None => s1
          end
      | None => s
      end
  | None => s
  end.

Definition deleteNote (i : jsstring) (s : State) : State :=
  match findIndex (has_id i) (notes s) with
  | Some index => saveNotes (set_notes (delete index (notes s)) s)
  | None => s
  end.

Definition getNote (i : jsstring) (s : State) : option Note.t :=
  List.find (has_id i) (notes s).

(** ** The focus timer *)

(** [minutes * 60 || dflt]: the product is [NaN] when the setting is
    missing, and [NaN] and [0] are falsy. *)
Definition seconds_or (minutes : option Z) (dflt : Z) : Z :=
  match minutes with
  | Some m => if m * 60 =? 0 then dflt else m * 60
  | None => dflt
  end.

(** [this.settings.pomodoro?.workDuration * 60 || 25 * 60] *)
Definition workSeconds (st : Settings.t) : Z :=
  seconds_or (Settings.pomodoro st ≫= Settings.workDuration) (25 * 60).

(** [this.settings.pomodoro?.breakDuration * 60 || 5 * 60] *)
Definition breakSeconds (st : Settings.t) : Z :=
  seconds_or (Settings.pomodoro st ≫= Settings.breakDuration) (5 * 60).

(** [setInterval] arms a new interval and returns its handle. *)
Definition setInterval (s : State) : nat * State :=
  (nextInterval s,
   set_intervals (intervals s ++ [nextInterval s]) (S (nextInterval s)) s).

(** [clearInterval]; the handle [null] clears nothing. *)
Definition clearInterval (h : option nat) (s : State) : State :=
  match h with
  | Some i =>
      set_intervals (filter (fun j => j ≠ i) (intervals s)) (nextInterval s) s
  | None => s
  end.

Definition setupPomodoro (s : State) : State :=
  updatePomodoroDisplay (set_pomodoroSeconds (workSeconds (settings s)) s).

Definition startPomodoro (s : State) : State :=
  if pomodoroRunning s then s
  else
    let s1 := set_pomodoroMode work (set_pomodoroRunning true s) in
    let '(h, s2) := setInterval s1 in
    set_pomodoroTimer (Some h) s2.

Definition pausePomodoro (s : State) : State :=
  if negb (pomodoroRunning s) then s
  else clearInterval (pomodoroTimer s) (set_pomodoroRunning false s).

Definition resetPomodoro (s : State) : State :=
  let s1 := pausePomodoro s in
  let s2 := set_pomodoroMode work s1 in
  let s3 := set_pomodoroSeconds (workSeconds (settings s2)) s2 in
  updatePomodoroDisplay s3.

Definition pomodoroFinished (s : State) : State :=
  let s1 := pausePomodoro s in
  let s2 :=
    match pomodoroMode s1 with
    | work =>
        showNotification WorkTimeOver success
          (set_pomodoroSeconds (breakSeconds (settings s1))
             (set_pomodoroMode break s1))
    | break =>
        showNotification BreakTimeOver info
          (set_pomodoroSeconds (workSeconds (settings s1))
             (set_pomodoroMode work s1))
    end in
  startPomodoro s2.

(** The callback handed to [setInterval] by [startPomodoro].  The
    decrement is the one of the source as long as the seconds are within
    2^53 in magnitude; above, the double of the source does not move. *)
Definition tick (s : State) : State :=
  let s1 := updatePomodoroDisplay (set_pomodoroSeconds (pomodoroSeconds s - 1) s) in
  if pomodoroSeconds s1 <=? 0 then pomodoroFinished s1 else s1.

(** One second of the host: every interval armed at its start and still
    armed when its turn comes runs the callback once. *)
Definition elapse (s : State) : State :=
  foldl (fun st h => if bool_decide (h ∈ intervals st) then tick st else st)
    s (intervals s).

(** [n] seconds with no other event. *)
Definition elapse_n (n : nat) (s : State) : State := Nat.iter n elapse s.

(** ** Start-up *)

Definition defaultFolders : list Folder.t :=
  [ Folder.mk (js "work") [24037; 20316]%N (js "#3b82f6") 0;
    Folder.mk (js "study") [23398; 20064]%N (js "#10b981") 0;
    Folder.mk (js "ideas") [24819; 27861]%N (js "#f59e0b") 0;
    Folder.mk (js "goals") [30446; 26631]%N (js "#ef4444") 0 ].

Definition defaultSettings : Settings.t :=
  Settings.mk (Some (js "light"))
    (Some (Settings.mk_editor 16 (16 # 10) true))
    (Some (Settings.mk_pomodoro (Some 25) (Some 5)))
    (Some true).

(** The fields as the constructor leaves them before [init]. *)
Definition constructed (st : Storage) (doc : Document) : State :=
  mkState [] [] [] [] Settings.empty None (25 * 60) false work st doc [] O [].

Definition loadData (s : State) : State :=
  let st := localStorage s in
  let s1 := set_notes (default [] (workplanner_notes st)) s in
  let s2 := set_folders (default [] (workplanner_folders st)) s1 in
  let s3 := set_tasks (default [] (workplanner_tasks st)) s2 in
  let s4 := set_settings (default Settings.empty (workplanner_settings st)) s3 in
  let s5 := set_tags (default [] (workplanner_tags st)) s4 in
  let s6 :=
    match folders s5 with
    | [] => saveFolders (set_folders defaultFolders s5)
    | _ :: _ => s5
    end in
  let s7 :=
    if Settings.is_empty (settings s6)
    then saveSettings (set_settings defaultSettings s6)
    else s6 in
  updateFolderCounts s7.

(** [init], without the calls that only bind handlers or write to the page. *)
Definition init (s : State) : State :=
  setupPomodoro (updateStats (renderNotes (renderFolders (loadData s)))).

(** [new WorkPlannerApp()] on a given storage and page. *)
Definition newApp (st : Storage) (doc : Document) : State :=
  init (constructed st doc).

(** ** Export and import *)

Record Payload : Type := mkPayload {
  p_notes : option (list Note.t);
  p_folders : option (list Folder.t);
  p_tasks : option (list Task.t);
  p_settings : option Settings.t;
  p_tags : option (list Tag.t);
  p_exportDate : option timestamp
}.

(** The text of a file.  [Json data]: the text parses to a value that
    holds, under each of the five keys, nothing or a falsy value ([None]: the
    guard of the key skips both), or a collection of the shape of the store.
    [Malformed]: [JSON.parse] throws on the text, or gives [null], on which
    the first read of a key throws.  A text that parses to a value holding a
    truthy value of another shape under one of the keys is neither: on such
    a text the source assigns and stores the value and throws where it first
    uses it, inside the [try], with the keys applied so far kept. *)
Inductive FileText : Type :=
  | Json (data : Payload)
  | Malformed.

Definition JSON_stringify (data : Payload) : FileText := Json data.

Definition JSON_parse (text : FileText) : option Payload :=
  match text with
  | Json data => Some data
  | Malformed => None
  end.

(** [exportData]: the result is the text of the downloaded file. *)
Definition exportData (now : timestamp) (type : jsstring) (s : State)
  : FileText * State :=
  let data :=
    if bool_decide (type = js "all")
    then mkPayload (Some (notes s)) (Some (folders s)) (Some (tasks s))
           (Some (settings s)) (Some (tags s)) (Some now)
    else if bool_decide (type = js "notes")
    then mkPayload (Some (notes s)) None None None None (Some now)
    else mkPayload None None None None None None in
  (JSON_stringify data, showNotification ExportDone success s).

(** The [try] block of [importData] after a successful parse.  An array or
    an object is truthy, so each guard [if (data.k)] is the presence of the
    key; a payload whose keys hold values of another JSON type is outside
    the typed records. *)
Definition applyImport (data : Payload) (s : State) : State :=
  let s1 :=
    match p_notes data with
    | Some v => saveNotes (set_notes v s)
    | None => s
    end in
  let s2 :=
    match p_folders data with
    | Some v => saveFolders (set_folders v s1)
    | None => s1
    end in
  let s3 :=
    match p_tasks data with
    | Some v => saveTasks (set_tasks v s2)
    | None => s2
    end in
  let s4 :=
    match p_settings data with
    | Some v => saveSettings (set_settings v s3)
    | None => s3
    end in
  let s5 :=
    match p_tags data with
    | Some v => saveTags (set_tags v s4)
    | None => s4
    end in
  showNotification ImportDone success
    (updateStats (renderTags (renderNotes (renderFolders s5)))).

(** [importData] once the user has chosen [file] ([None]: no file chosen)
    and the reader has loaded its text. *)
Definition importData (file : option FileText) (s : State) : State :=
  match file with
  | None => s
  | Some text =>
      match JSON_parse text with
      | Some data => applyImport data s
      | None => showNotification ImportFailed error s
      end
  end.

(** ** Views of the notes *)

(** [String.prototype.includes]: [sub] occurs in [s] at some position;
    [prefixOf] tests the position at the head. *)
Fixpoint prefixOf (sub s : jsstring) : bool :=
  match sub, s with
  | [], _ => true
  | _ :: _, [] => false
  | c :: sub', d :: s' => (c =? d)%N && prefixOf sub' s'
  end.

Fixpoint includes (s sub : jsstring) : bool :=
  prefixOf sub s ||
  match s with
  | [] => false
  | _ :: s' => includes s' sub
  end.

Section Views.
(** [Date.prototype.toDateString] gives the day of an instant in the time
    zone of the host, and [String.prototype.toLowerCase] follows the case
    tables of Unicode: both are parameters. *)
Variable toDateString : timestamp -> jsstring.
Variable toLowerCase : jsstring -> jsstring.

(** [now] is the reading of the clock for the view [today]. *)
Definition getNotesByFolder (now : timestamp) (folderId : jsstring)
    (s : State) : list Note.t :=
  if bool_decide (folderId = js "all") then notes s
  else if bool_decide (folderId = js "starred")
  then filter (fun n => Note.starred n = true) (notes s)
  else if bool_decide (folderId = js "today")
  then filter (fun n => toDateString (Note.updatedAt n) = toDateString now)
         (notes s)
  else filter (fun n => Note.folder n = folderId) (notes s).

(** The predicate of the [filter] of [searchNotes]. *)
Definition matches (lowerQuery : jsstring) (n : Note.t) : bool :=
  includes (toLowerCase (Note.title n)) lowerQuery
  || includes (toLowerCase (Note.content n)) lowerQuery
  || existsb (fun tag => includes (toLowerCase tag) lowerQuery) (Note.tags n).

Definition searchNotes (query : jsstring) (s : State) : list Note.t :=
  if negb (truthy query) then notes s
  else
    let lowerQuery := toLowerCase query in
    filter (fun n => matches lowerQuery n = true) (notes s).
End Views.

(** ** Stars and the tags of the note in the editor *)

Definition onlyStarred (b : bool) : Updates.t :=
  Updates.mk None None None None None (Some b) None None None.


Definition toggleStar (now : timestamp) (i : jsstring) (s : State) : State :=
  match getNote i s with
  | Some note =>
      updateStats
        (renderNotes (updateNote now i (onlyStarred (negb (Note.starred note))) s))
  | None => s
  end.




(** ** Tasks *)

(** The [updates] argument of [updateTask]. *)
Module TaskUpdates.
Record t : Type := mk {
  id : option jsstring;
  title : option jsstring;
  description : option jsstring;
  column : option jsstring;
  createdAt : option timestamp;
  dueDate : option (option timestamp);
  priority : option jsstring;
  tags : option (list jsstring)
}.
Definition onlyColumn (c : jsstring) : t :=
  mk None None None (Some c) None None None None.
End TaskUpdates.

(** An argument left out ([None]) takes the default of the signature. *)
Definition createTask (tid : Z) (tc : timestamp) (title : jsstring)
    (description column : option jsstring) (s : State) : Task.t * State :=
  let task :=
    Task.mk (toString tid) title (default [] description)
      (default (js "todo") column) tc None (js "medium") [] in
  (task, saveTasks (set_tasks (tasks s ++ [task]) s)).

Definition task_has_id (i : jsstring) (t : Task.t) : bool :=
  bool_decide (Task.id t = i).

(** [{ ...this.tasks[index], ...updates }] *)
Definition mergeTask (old : Task.t) (u : TaskUpdates.t) : Task.t :=
  Task.mk
    (default (Task.id old) (TaskUpdates.id u))
    (default (Task.title old) (TaskUpdates.title u))
    (default (Task.description old) (TaskUpdates.description u))
    (default (Task.column old) (TaskUpdates.column u))
    (default (Task.createdAt old) (TaskUpdates.createdAt u))
    (default (Task.dueDate old) (TaskUpdates.dueDate u))
    (default (Task.priority old) (TaskUpdates.priority u))
    (default (Task.tags old) (TaskUpdates.tags u)).

Definition updateTask (i : jsstring) (updates : TaskUpdates.t) (s : State)
  : State :=
  match findIndex (task_has_id i) (tasks s) with
  | Some index =>
      match tasks s !! index with
      | Some old => saveTasks (set_tasks (<[index := mergeTask old updates]> (tasks s)) s)
      | None => s
      end
  | None => s
  end.

Definition deleteTask (i : jsstring) (s : State) : State :=
  match findIndex (task_has_id i) (tasks s) with
  | Some index => saveTasks (set_tasks (delete index (tasks s)) s)
  | None => s
  end.

Definition getTasksByColumn (column : jsstring) (s : State) : list Task.t :=
  filter (fun t => Task.column t = column) (tasks s).

(** ** Theme *)

(** [this.settings.theme || 'light'], the value [setupTheme] writes to the
    attribute [data-theme] of the page. *)
Definition setupTheme (s : State) : jsstring :=
  match Settings.theme (settings s) with
  | Some t => if truthy t then t else js "light"
  | None => js "light"
  end.

(** [currentTheme] is the attribute [data-theme] as the page holds it
    ([None]: no attribute); the result is the value written to it. *)
Definition toggleTheme (currentTheme : option jsstring) (s : State)
  : jsstring * State :=
  let newTheme :=
    if bool_decide (currentTheme = Some (js "dark")) then js "light"
    else js "dark" in
  let st := settings s in
  (newTheme,
   saveSettings
     (set_settings
        (Settings.mk (Some newTheme) (Settings.editor st)
           (Settings.pomodoro st) (Settings.autoSave st)) s)).

(** ** The word counter of the editor *)

(** [String.prototype.trim]: the white space of [trim] is the class [\s]. *)
Fixpoint trimStart (s : jsstring) : jsstring :=
  match s with
  | [] => []
  | c :: s' => if isWhiteSpace c then trimStart s' else s
  end.

Definition trim (s : jsstring) : jsstring :=
  reverse (trimStart (reverse (trimStart s))).

(** [str.split(/\s+/)]: the pieces between the maximal runs of white space;
    [cur] is the piece being read, and a run at either end leaves an empty
    piece there. *)
Fixpoint split_ws_from (in_run : bool) (cur : jsstring) (s : jsstring)
  : list jsstring :=
  match s with
  | [] => [cur]
  | c :: s' =>
      if isWhiteSpace c
      then (if in_run then split_ws_from true [] s'
            else cur :: split_ws_from true [] s')
      else split_ws_from false (cur ++ [c]) s'
  end.

Definition split_ws (s : jsstring) : list jsstring := split_ws_from false [] s.

(** The two numbers [updateWordCount] shows: [words] and [chars]. *)
Definition updateWordCount (text : jsstring) : nat * nat :=
  (length (split_ws (trim text)), length text).

(** ** Predicates and sample data of the statements *)

(** The state of a machine that runs on one armed interval. *)
Definition ticking (s : State) (h : nat) : Prop :=
  intervals s = [h] /\ pomodoroTimer s = Some h /\ pomodoroRunning s = true.

(** The application as it starts on an empty storage, in a page that has
    the tag cloud and the notification area. *)
Definition page : Document := mkDocument true true.
Definition fresh : State := newApp emptyStorage page.

(** The derived-count invariant of the folders. *)
Definition counts_ok (s : State) : Prop :=
  Forall (fun f => Folder.count f = notes_in (notes s) (Folder.id f))
    (folders s).

(** An [updates] object that holds the key [content] only. *)
Definition onlyContent (c : jsstring) : Updates.t :=
  Updates.mk None None (Some c) None None None None None None.

(** A payload that holds the given notes and folders and no other key. *)
Definition notesAndFolders (ns : list Note.t) (fs : list Folder.t) : Payload :=
  mkPayload (Some ns) (Some fs) None None None None.

(** The folders when the payload has none: counted again against the
    notes of the payload, if it has notes. *)
Definition recounted (data : Payload) (fs : list Folder.t) : list Folder.t :=
  match p_notes data with
  | Some ns => recount ns <$> fs
  | None => fs
  end.

(** The order in which the tag-cloud render leaves the tags. *)
Definition rendered (doc : Document) (ts : list Tag.t) : list Tag.t :=
  if tagsCloud doc then Array_sort by_count_desc ts else ts.

(** The five collections of the store. *)
Definition collections (s : State)
  : list Note.t * list Folder.t * list Task.t * Settings.t * list Tag.t :=
  (notes s, folders s, tasks s, settings s, tags s).

(** The tags are in descending order of count. *)
Fixpoint descending (ts : list Tag.t) : bool :=
  match ts with
  | [] => true
  | a :: ts' =>
      match ts' with
      | [] => true
      | b :: _ => (Tag.count b <=? Tag.count a) && descending ts'
      end
  end.

(** A store with three notes, tagged [a], [b] and [b]: the tags are
    [a] with count 1, then [b] with count 2. *)
Definition tagged : State :=
  let s1 := snd (createNote 1700000000001 1700000000001 1700000000001
                   (js "n1") (js "x") [js "a"] [] fresh) in
  let s2 := snd (createNote 1700000000002 1700000000002 1700000000002
                   (js "n2") (js "y") [js "b"] [] s1) in
  snd (createNote 1700000000003 1700000000003 1700000000003
         (js "n3") (js "z") [js "b"] [] s2).


(** A string with no white space, and a run of white space. *)
Definition ws_free (w : jsstring) : Prop :=
  Forall (fun c => isWhiteSpace c = false) w.

Definition all_ws (r : jsstring) : Prop :=
  Forall (fun c => isWhiteSpace c = true) r.

(** A string read as runs of white space, each followed by a word: the
    string itself, and the string with a hyphen for each run. *)
Fixpoint join_runs (rest : list (jsstring * jsstring)) : jsstring :=
  match rest with
  | [] => []
  | (r, w) :: rest' => r ++ w ++ join_runs rest'
  end.

Fixpoint hyphenate (rest : list (jsstring * jsstring)) : jsstring :=
  match rest with
  | [] => []
  | (_, w) :: rest' => 45%N :: w ++ hyphenate rest'
  end.

(** Each run is a non-empty run of white space and each word a non-empty
    string with no white space. *)
Definition runs_ok (rest : list (jsstring * jsstring)) : Prop :=
  Forall (fun rw => (fst rw <> [] /\ all_ws (fst rw)) /\
                    (snd rw <> [] /\ ws_free (snd rw))) rest.

(** [toLowerCase] on strings of Basic Latin. *)
Definition asciiLower (s : jsstring) : jsstring :=
  (fun c => if (65 <=? c)%N && (c <=? 90)%N then (c + 32)%N else c) <$> s.

(** The application after the import of settings whose work duration is 0. *)
Definition zeroWork : State :=
  importData
    (Some (Json (mkPayload None None None
                   (Some (Settings.mk None None
                            (Some (Settings.mk_pomodoro (Some 0) (Some 5)))
                            None))
                   None None)))
    fresh.

(** The timer is on at most one interval: while it runs, the interval whose
    handle it holds is the only one armed and the mode is [work]; while it
    does not run, no interval is armed. *)
Definition timer_ok (s : State) : Prop :=
  if pomodoroRunning s
  then (exists h, intervals s = [h] /\ pomodoroTimer s = Some h) /\
       pomodoroMode s = work
  else intervals s = [].



(** The names that [getNotesByFolder] reads as a view and not as a folder. *)
Definition reserved (fid : jsstring) : Prop :=
  fid = js "all" \/ fid = js "starred" \/ fid = js "today".

(** No two notes have the same id. *)
Definition unique_ids (s : State) : Prop := NoDup (Note.id <$> notes s).

(** A day of 86400000 milliseconds, for the statements on the view [today]. *)
Definition utcDay (t : timestamp) : jsstring := toString (t / 86400000).

(** [sub] occurs in [s]. *)
Definition occurs (sub s : jsstring) : Prop :=
  exists a b, s = a ++ sub ++ b.

(** A store with one note filed under the folder [work]. *)
Definition filed : State :=
  snd (createNote 1700000000004 1700000000004 1700000000004
         (js "Plan") (js "Ship it") [js "a"] (js "work") tagged).

(** A store with two tasks, one in [todo] and one in [doing]. *)
Definition board : State :=
  let s1 := snd (createTask 1700000000005 1700000000005 (js "t1") None None
                   fresh) in
  snd (createTask 1700000000006 1700000000006 (js "t2") None
         (Some (js "doing")) s1).

(** The number of tasks that a column shows. *)
Definition columnCount (c : jsstring) (s : State) : Z :=
  Z.of_nat (length (getTasksByColumn c s)).

(** 1 if the task is in the column, 0 if not. *)
Definition inColumn (c : jsstring) (t : Task.t) : Z :=
  if bool_decide (Task.column t = c) then 1 else 0.

(** The string ends with a unit that is not white space. *)
Definition ends_word (x : jsstring) : Prop :=
  exists pre c, x = pre ++ [c] /\ isWhiteSpace c = false.

(** A store with a note filed under [today], as [newDailyNote] files its
    notes, and no folder of that id. *)
Definition daily : State :=
  snd (createNote 1700000000007 1700000000007 1700000000007
         (js "Diary") (js "text") [] (js "today") fresh).

(** The white space at the head of a string. *)
Fixpoint leadingWs (s : jsstring) : jsstring :=
  match s with
  | [] => []
  | c :: s' => if isWhiteSpace c then c :: leadingWs s' else []
  end.

(** The reading of the words [internal whitespace runs each replaced by a
    single hyphen] of the specification: the runs of white space inside the
    string, between its first and its last unit that is not white space, are
    replaced, and the white space before and after is left as it is. *)
Definition internal_runs_hyphenated (s : jsstring) : jsstring :=
  leadingWs s ++ replace_ws (trim s)
  ++ reverse (leadingWs (reverse (trimStart s))).

(** * Properties *)

(** ** The focus timer *)

Section Timer.
Implicit Types s : State.

Lemma startPomodoro_paused s :
  pomodoroRunning s = false ->
  startPomodoro s =
    set_pomodoroTimer (Some (nextInterval s))
      (set_intervals (intervals s ++ [nextInterval s]) (S (nextInterval s))
         (set_pomodoroMode work (set_pomodoroRunning true s))).
Proof. intros H. unfold startPomodoro. rewrite H. reflexivity. Qed.

(** Whatever the mode was, a start from pause leaves the mode [work]. *)
Lemma startPomodoro_mode s :
  pomodoroRunning s = false -> pomodoroMode (startPomodoro s) = work.
Proof. intros H. rewrite startPomodoro_paused by exact H. reflexivity. Qed.

Lemma pausePomodoro_running s : pomodoroRunning (pausePomodoro s) = false.
Proof.
  unfold pausePomodoro. destruct (pomodoroRunning s) eqn:E; simpl.
  - destruct (pomodoroTimer s); reflexivity.
  - exact E.
Qed.

Lemma pausePomodoro_settings s : settings (pausePomodoro s) = settings s.
Proof.
  unfold pausePomodoro. destruct (pomodoroRunning s); simpl; [|reflexivity].
  destruct (pomodoroTimer s); reflexivity.
Qed.

Lemma pausePomodoro_seconds s :
  pomodoroSeconds (pausePomodoro s) = pomodoroSeconds s.
Proof.
  unfold pausePomodoro. destruct (pomodoroRunning s); simpl; [|reflexivity].
  destruct (pomodoroTimer s); reflexivity.
Qed.

Lemma pausePomodoro_mode s : pomodoroMode (pausePomodoro s) = pomodoroMode s.
Proof.
  unfold pausePomodoro. destruct (pomodoroRunning s); simpl; [|reflexivity].
  destruct (pomodoroTimer s); reflexivity.
Qed.

(** A pause disarms the interval of the timer. *)
Lemma pausePomodoro_disarms s h :
  pomodoroRunning s = true -> pomodoroTimer s = Some h ->
  h ∉ intervals (pausePomodoro s).
Proof.
  intros Hr Ht. unfold pausePomodoro. rewrite Hr, Ht. simpl.
  rewrite list_elem_of_filter. intros [Hne _]. apply Hne. reflexivity.
Qed.

Lemma showNotification_running m k s :
  pomodoroRunning (showNotification m k s) = pomodoroRunning s.
Proof. unfold showNotification. destruct (notificationArea _); reflexivity. Qed.

Lemma showNotification_mode m k s :
  pomodoroMode (showNotification m k s) = pomodoroMode s.
Proof. unfold showNotification. destruct (notificationArea _); reflexivity. Qed.

Lemma showNotification_seconds m k s :
  pomodoroSeconds (showNotification m k s) = pomodoroSeconds s.
Proof. unfold showNotification. destruct (notificationArea _); reflexivity. Qed.

(** Completion ends in [startPomodoro], which runs from pause: the machine
    is in mode [work] after every completion. *)
Lemma pomodoroFinished_mode s : pomodoroMode (pomodoroFinished s) = work.
Proof.
  unfold pomodoroFinished. apply startPomodoro_mode.
  destruct (pomodoroMode (pausePomodoro s));
    rewrite showNotification_running; simpl; apply pausePomodoro_running.
Qed.

Lemma pomodoroFinished_running s :
  pomodoroRunning (pomodoroFinished s) = true.
Proof.
  unfold pomodoroFinished.
  rewrite startPomodoro_paused; [reflexivity|].
  destruct (pomodoroMode (pausePomodoro s));
    rewrite showNotification_running; simpl; apply pausePomodoro_running.
Qed.

(** The seconds after a completion entered in mode [work] are those of a
    break. *)
Lemma pomodoroFinished_seconds s :
  pomodoroMode s = work ->
  pomodoroSeconds (pomodoroFinished s) = breakSeconds (settings s).
Proof.
  intros Hm. unfold pomodoroFinished.
  rewrite pausePomodoro_mode, Hm.
  rewrite startPomodoro_paused.
  - simpl. rewrite showNotification_seconds. simpl.
    now rewrite pausePomodoro_settings.
  - rewrite showNotification_running. simpl. apply pausePomodoro_running.
Qed.

Lemma elapse_ticking s h :
  ticking s h -> elapse s = tick s.
Proof.
  intros (Hi & _ & _). unfold elapse. rewrite Hi. simpl.
  rewrite Hi. rewrite bool_decide_eq_true_2; [reflexivity|].
  apply list_elem_of_here.
Qed.

Lemma elapse_countdown s h :
  ticking s h -> 1 < pomodoroSeconds s ->
  elapse s = set_pomodoroSeconds (pomodoroSeconds s - 1) s.
Proof.
  intros Ht Hs. rewrite (elapse_ticking s h Ht). unfold tick. simpl.
  destruct (Z.leb_spec (pomodoroSeconds s - 1) 0); [lia | reflexivity].
Qed.

Lemma elapse_n_countdown k s h :
  ticking s h -> Z.of_nat k < pomodoroSeconds s ->
  elapse_n k s = set_pomodoroSeconds (pomodoroSeconds s - Z.of_nat k) s.
Proof.
  intros Ht. induction k as [|k IH]; intros Hs.
  - simpl. rewrite Z.sub_0_r. destruct s; reflexivity.
  - unfold elapse_n in *. simpl Nat.iter. rewrite IH by lia.
    rewrite (elapse_countdown _ h).
    + unfold set_pomodoroSeconds. simpl. f_equal. lia.
    + destruct Ht as (? & ? & ?). repeat split; assumption.
    + simpl. lia.
Qed.

(** A run from pause: after as many seconds as the countdown holds, the
    first completion has happened and the machine runs in mode [work] on
    the seconds of a break. *)
Lemma run_to_completion s :
  pomodoroRunning s = false -> intervals s = [] -> 0 < pomodoroSeconds s ->
  let s' := elapse_n (Z.to_nat (pomodoroSeconds s)) (startPomodoro s) in
  pomodoroRunning s' = true /\ pomodoroMode s' = work /\
  pomodoroSeconds s' = breakSeconds (settings s).
Proof.
  intros Hr Hi Hs.
  assert (Ht : ticking (startPomodoro s) (nextInterval s)).
  { rewrite startPomodoro_paused by exact Hr. unfold ticking. simpl.
    rewrite Hi. repeat split. }
  assert (Hsec : pomodoroSeconds (startPomodoro s) = pomodoroSeconds s).
  { rewrite startPomodoro_paused by exact Hr. reflexivity. }
  assert (Hset : settings (startPomodoro s) = settings s).
  { rewrite startPomodoro_paused by exact Hr. reflexivity. }
  replace (Z.to_nat (pomodoroSeconds s))
    with (S (Z.to_nat (pomodoroSeconds s - 1))) by lia.
  unfold elapse_n. simpl Nat.iter. fold (elapse_n (Z.to_nat (pomodoroSeconds s - 1)) (startPomodoro s)).
  rewrite (elapse_n_countdown _ _ (nextInterval s) Ht) by lia.
  rewrite (elapse_ticking _ (nextInterval s)).
  2:{ destruct Ht as (? & ? & ?). repeat split; assumption. }
  unfold tick. simpl. rewrite Hsec.
  destruct (Z.leb_spec (pomodoroSeconds s - Z.of_nat (Z.to_nat (pomodoroSeconds s - 1)) - 1) 0); [|lia].
  split; [apply pomodoroFinished_running|].
  split; [apply pomodoroFinished_mode|].
  rewrite pomodoroFinished_seconds.
  - simpl. now rewrite Hset.
  - simpl. now apply startPomodoro_mode.
Qed.
End Timer.

(** C1, on the code: the application starts on an empty storage (work
    duration 25 minutes), the timer is started and 1500 seconds elapse.  The
    completion fired once and announced the end of the work time, the timer
    runs on the 300 seconds of a break, but its mode is [work], not [break]:
    [startPomodoro], called last by [pomodoroFinished], writes [work] over
    the mode that was just swapped. *)
Theorem default_run_ends_in_work_mode :
  let s := elapse_n 1500 (startPomodoro fresh) in
  pomodoroRunning s = true /\ pomodoroMode s = work /\
  pomodoroSeconds s = 5 * 60 /\
  notifications s = [(WorkTimeOver, success)].
Proof. vm_compute. repeat split. Qed.

(** With a work duration [w] that is set and not 0, [resetPomodoro] leaves
    the seconds of [w] minutes. *)
Lemma resetPomodoro_configured (s : State) (p : Settings.pomodoro_t) (w : Z) :
  Settings.pomodoro (settings s) = Some p ->
  Settings.workDuration p = Some w ->
  w <> 0 ->
  pomodoroSeconds (resetPomodoro s) = w * 60.
Proof.
  intros Hp Hw Hne. unfold resetPomodoro. simpl.
  rewrite pausePomodoro_settings.
  unfold workSeconds. rewrite Hp. simpl. rewrite Hw. simpl.
  destruct (Z.eqb_spec (w * 60) 0); [lia | reflexivity].
Qed.

(** C7, as stated, fails: the settings hold the work duration 0 and
    [resetPomodoro] leaves 1500 seconds. *)
Lemma resetPomodoro_zero_duration :
  Settings.pomodoro (settings zeroWork) ≫= Settings.workDuration = Some 0 /\
  pomodoroSeconds (resetPomodoro zeroWork) = 1500 /\
  pomodoroSeconds (resetPomodoro zeroWork) <> 0 * 60.
Proof. vm_compute. repeat apply conj; [reflexivity | reflexivity | discriminate]. Qed.

(** C7, amended: from any state of the timer, [resetPomodoro] leaves the
    timer paused (not running, and the interval of a running timer
    disarmed), in mode [work], with the settings and the collections as
    they were, and with 60 times the work duration that the settings hold
    when it is called if that duration is set and not 0, and 1500 seconds
    otherwise. *)
Theorem resetPomodoro_spec (s : State) :
  let s' := resetPomodoro s in
  pomodoroRunning s' = false /\ pomodoroMode s' = work /\
  pomodoroSeconds s' =
    match Settings.pomodoro (settings s) ≫= Settings.workDuration with
    | Some w => if w =? 0 then 1500 else w * 60
    | None => 1500
    end /\
  match pomodoroTimer s with
  | Some h => if pomodoroRunning s then h ∉ intervals s'
              else intervals s' = intervals s
  | None => intervals s' = intervals s
  end /\
  settings s' = settings s /\ collections s' = collections s.
Proof.
  unfold resetPomodoro. simpl.
  rewrite pausePomodoro_running, pausePomodoro_settings.
  repeat apply conj; try reflexivity.
  - unfold workSeconds, seconds_or.
    destruct (Settings.pomodoro (settings s) ≫= Settings.workDuration) as [w|];
      [|reflexivity].
    destruct (Z.eqb_spec (w * 60) 0), (Z.eqb_spec w 0); (reflexivity || lia).
  - destruct (pomodoroTimer s) as [h|] eqn:Ht, (pomodoroRunning s) eqn:Hr.
    + now apply pausePomodoro_disarms.
    + unfold pausePomodoro. now rewrite Hr.
    + unfold pausePomodoro. now rewrite Hr, Ht.
    + unfold pausePomodoro. now rewrite Hr.
  - unfold collections, pausePomodoro.
    destruct (pomodoroRunning s); [|reflexivity].
    destruct (pomodoroTimer s); reflexivity.
Qed.

(** When no work duration is set, or the one set is 0, [resetPomodoro]
    falls back to 25 minutes. *)
Lemma resetPomodoro_fallback (s : State) :
  Settings.pomodoro (settings s) ≫= Settings.workDuration = None \/
  Settings.pomodoro (settings s) ≫= Settings.workDuration = Some 0 ->
  pomodoroSeconds (resetPomodoro s) = 25 * 60.
Proof.
  intros H. unfold resetPomodoro. simpl. rewrite pausePomodoro_settings.
  unfold workSeconds. destruct H as [-> | ->]; reflexivity.
Qed.

(** C9: [startPomodoro] on a running timer and [pausePomodoro] on a timer
    that is not running return the state as it is: no interval is armed or
    cleared, and the seconds, the mode and the handle are kept. *)
Theorem start_running_pause_paused_noop (s1 s2 : State) :
  pomodoroRunning s1 = true ->
  pomodoroRunning s2 = false ->
  startPomodoro s1 = s1 /\ pausePomodoro s2 = s2.
Proof.
  intros H1 H2. unfold startPomodoro, pausePomodoro.
  rewrite H1, H2. split; reflexivity.
Qed.

Lemma start_running_pause_paused_noop_witness :
  startPomodoro (startPomodoro fresh) = startPomodoro fresh /\
  pausePomodoro fresh = fresh.
Proof.
  exact (start_running_pause_paused_noop (startPomodoro fresh) fresh
           eq_refl eq_refl).
Defined.

(** ** Notes and folder counts *)

Section Notes.
Implicit Types s : State.

Lemma findIndex_lookup {A : Type} (p : A -> bool) (l : list A) (i : nat) :
  findIndex p l = Some i -> exists x, l !! i = Some x /\ p x = true.
Proof.
  revert i. induction l as [|y l IH]; intros i; simpl; [discriminate|].
  destruct (p y) eqn:E.
  - intros [= <-]. exists y. split; [reflexivity | exact E].
  - destruct (findIndex p l) as [j|]; simpl; [|discriminate].
    intros [= <-]. destruct (IH j eq_refl) as (x & Hx & Hp).
    exists x. split; assumption.
Qed.

Lemma saveNotes_notes s : notes (saveNotes s) = notes s.
Proof. reflexivity. Qed.

Lemma saveNotes_folders s :
  folders (saveNotes s) = recount (notes s) <$> folders s.
Proof. reflexivity. Qed.

Lemma updateTags_notes ts s : notes (updateTags ts s) = notes s.
Proof. reflexivity. Qed.

Lemma updateTags_folders ts s : folders (updateTags ts s) = folders s.
Proof. reflexivity. Qed.

(** [updateFolderCounts] establishes the invariant, whatever the counts
    were. *)
Lemma recount_ok (ns : list Note.t) (fs : list Folder.t) :
  Forall (fun f => Folder.count f = notes_in ns (Folder.id f))
    (recount ns <$> fs).
Proof. apply Forall_fmap, Forall_true. intros f. reflexivity. Qed.

Lemma saveNotes_counts_ok s : counts_ok (saveNotes s).
Proof. unfold counts_ok. rewrite saveNotes_notes, saveNotes_folders. apply recount_ok. Qed.

Lemma updateTags_counts_ok ts s : counts_ok s -> counts_ok (updateTags ts s).
Proof. intros H. exact H. Qed.

(** What [updateNote] writes at the index it found. *)
Lemma updateNote_found now i u s index old :
  findIndex (has_id i) (notes s) = Some index ->
  notes s !! index = Some old ->
  notes (updateNote now i u s) = <[index := merge now old u]> (notes s).
Proof.
  intros Hf Hl. unfold updateNote. rewrite Hf, Hl.
  destruct (Updates.tags u); reflexivity.
Qed.

Lemma updateNote_at_index now i u s index old :
  findIndex (has_id i) (notes s) = Some index ->
  notes s !! index = Some old ->
  notes (updateNote now i u s) !! index = Some (merge now old u).
Proof.
  intros Hf Hl. rewrite (updateNote_found _ _ _ _ _ _ Hf Hl).
  apply list_lookup_insert_eq. now apply lookup_lt_Some in Hl.
Qed.

(** With a content that is not empty the count is its length, and the
    stamp is the reading of the clock. *)
Lemma merge_content now old u c :
  Updates.content u = Some c -> c <> [] ->
  Note.content (merge now old u) = c /\
  Note.wordCount (merge now old u) = Z.of_nat (length c) /\
  Note.updatedAt (merge now old u) = now.
Proof.
  intros Hc Hne. unfold merge. rewrite Hc. simpl.
  destruct c; [contradiction | repeat split].
Qed.

(** Without the key [content] the count is computed again from the
    content the note has. *)
Lemma merge_no_content now old u :
  Updates.content u = None ->
  Note.content (merge now old u) = Note.content old /\
  Note.wordCount (merge now old u) = Z.of_nat (length (Note.content old)) /\
  Note.updatedAt (merge now old u) = now.
Proof. intros Hc. unfold merge. rewrite Hc. repeat split. Qed.

(** With the empty content the count is the length of the content that
    is being replaced. *)
Lemma merge_empty_content now old u :
  Updates.content u = Some [] ->
  Note.content (merge now old u) = [] /\
  Note.wordCount (merge now old u) = Z.of_nat (length (Note.content old)).
Proof. intros Hc. unfold merge. rewrite Hc. split; reflexivity. Qed.

Lemma js_inj (a b : string) : js a = js b -> a = b.
Proof.
  unfold js. intros H.
  apply (f_equal (fmap Ascii.ascii_of_N)) in H.
  rewrite <- !list_fmap_compose in H.
  assert (Hid : forall l : list Ascii.ascii,
             (Ascii.ascii_of_N ∘ Ascii.N_of_ascii) <$> l = l).
  { intros l. induction l as [|x l IH]; simpl; [reflexivity|].
    rewrite Ascii.ascii_N_embedding. f_equal. exact IH. }
  rewrite !Hid in H.
  rewrite <- (String.string_of_list_ascii_of_string a),
          <- (String.string_of_list_ascii_of_string b).
  now rewrite H.
Qed.

Lemma toString_inj (a b : Z) : toString a = toString b -> a = b.
Proof. unfold toString. intros H. apply js_inj in H. now apply (inj pretty) in H. Qed.
End Notes.

(** ** Import *)

Section Importing.
Implicit Types (s : State) (data : Payload).

Ltac by_cases s data :=
  destruct s as [? ? ? ? ? ? ? ? ? ? [[] []] ? ? ?];
  destruct data as [[?|] [?|] [?|] [?|] [?|] ?];
  reflexivity.

Lemma applyImport_notes data s :
  notes (applyImport data s) = default (notes s) (p_notes data).
Proof. by_cases s data. Qed.

Lemma applyImport_folders data s :
  folders (applyImport data s) =
    default (recounted data (folders s)) (p_folders data).
Proof. by_cases s data. Qed.

Lemma applyImport_tasks data s :
  tasks (applyImport data s) = default (tasks s) (p_tasks data).
Proof. by_cases s data. Qed.

Lemma applyImport_settings data s :
  settings (applyImport data s) = default (settings s) (p_settings data).
Proof. by_cases s data. Qed.

Lemma applyImport_tags data s :
  tags (applyImport data s) =
    rendered (document s) (default (tags s) (p_tags data)).
Proof. by_cases s data. Qed.


End Importing.

(** C2, on the code: a note is created with the content [abc] and then
    updated with the empty content.  The note now holds the empty content
    and still the count 3: the guard [updates.content ? ... : ...] takes the
    empty string for a missing key. *)
Theorem updateNote_empty_content_stale_wordCount :
  let '(n, s1) :=
    createNote 1700000000000 1700000000000 1700000000000
      (js "Test") (js "abc") [] (js "work") fresh in
  let s2 := updateNote 1700000000500 (Note.id n) (onlyContent []) s1 in
  exists n', notes s2 = [n'] /\ Note.id n' = Note.id n /\
             Note.content n' = [] /\ Note.wordCount n' = 3.
Proof. vm_compute. eexists. repeat split. Qed.

(** C3, as stated, fails: an import that replaces the notes and the folders
    keeps the counts of the payload, here 3 for a folder with no note. *)
Lemma import_keeps_payload_counts :
  let payload :=
    notesAndFolders [] [Folder.mk (js "work") (js "Work") (js "#000") 3] in
  ~ counts_ok (importData (Some (Json payload)) fresh).
Proof.
  intros payload H. unfold counts_ok in H.
  assert (E : folders (importData (Some (Json payload)) fresh) =
              [Folder.mk (js "work") (js "Work") (js "#000") 3])
    by (vm_compute; reflexivity).
  rewrite E in H. apply Forall_inv in H. vm_compute in H. discriminate H.
Qed.

(** C3, amended: after [createNote], after [updateNote] or [deleteNote] of
    an id that is present (with an absent id both leave the state as it is),
    and after the import of a file whose keys each hold nothing or a
    collection of the shape of the store, with a list of notes and no
    folders, every folder's count is the number of notes in that folder; the
    import of such a file with a list of folders leaves the folders as the
    file gives them. *)
Theorem folder_counts_after_note_mutation :
  (forall tid tc tu title content tags folder s,
      counts_ok (snd (createNote tid tc tu title content tags folder s))) /\
  (forall now i u s,
      match findIndex (has_id i) (notes s) with
      | Some _ => counts_ok (updateNote now i u s)
      | None => updateNote now i u s = s
      end) /\
  (forall i s,
      match findIndex (has_id i) (notes s) with
      | Some _ => counts_ok (deleteNote i s)
      | None => deleteNote i s = s
      end) /\
  (forall data s,
      let s' := importData (Some (Json data)) s in
      match p_notes data, p_folders data with
      | Some _, None => counts_ok s'
      | _, Some fs => folders s' = fs
      | None, None => folders s' = folders s
      end).
Proof.
  split; [|split; [|split]].
  - intros. unfold createNote. simpl. apply updateTags_counts_ok, saveNotes_counts_ok.
  - intros now i u s. destruct (findIndex (has_id i) (notes s)) as [index|] eqn:Hf.
    + destruct (findIndex_lookup _ _ _ Hf) as (old & Hl & _).
      unfold updateNote. rewrite Hf, Hl.
      destruct (Updates.tags u);
        [apply updateTags_counts_ok|]; apply saveNotes_counts_ok.
    + unfold updateNote. now rewrite Hf.
  - intros i s. unfold deleteNote.
    destruct (findIndex (has_id i) (notes s)); [apply saveNotes_counts_ok | reflexivity].
  - intros data s. simpl. unfold counts_ok.
    rewrite applyImport_folders, applyImport_notes. unfold recounted.
    destruct (p_notes data), (p_folders data); simpl;
      first [reflexivity | apply recount_ok].
Qed.

(** C4, as stated, fails: two notes created on the same reading of the
    clock get the same id, and both are in the store. *)
Lemma createNote_same_reading_same_id :
  let '(n1, s1) :=
    createNote 1700000000000 1700000000000 1700000000000
      (js "first") [] [] [] fresh in
  let '(n2, s2) :=
    createNote 1700000000000 1700000000000 1700000000000
      (js "second") [] [] [] s1 in
  notes s2 = [n2; n1] /\ n1 <> n2 /\ Note.id n1 = Note.id n2.
Proof. vm_compute. repeat split. discriminate. Qed.

(** C4, amended: the notes of two calls of [createNote] have different
    ids exactly when the two calls read different values of [Date.now()]. *)
Theorem createNote_ids_differ_iff_readings_differ
    (tid1 tid2 : Z) (tc1 tu1 tc2 tu2 : timestamp)
    (title1 content1 folder1 title2 content2 folder2 : jsstring)
    (tags1 tags2 : list jsstring) (s1 s2 : State) :
  Note.id (fst (createNote tid1 tc1 tu1 title1 content1 tags1 folder1 s1)) <>
  Note.id (fst (createNote tid2 tc2 tu2 title2 content2 tags2 folder2 s2))
  <-> tid1 <> tid2.
Proof.
  simpl. split; intros H E; apply H.
  - now rewrite E.
  - now apply toString_inj.
Qed.

(** ** The order of the tags *)

Section Sorting.
Implicit Types (ts : list Tag.t) (x : Tag.t).

Lemma sort_insert_perm {A : Type} (cmp : A -> A -> Z) (x : A) (l : list A) :
  sort_insert cmp x l ≡ₚ x :: l.
Proof.
  induction l as [|y l IH]; simpl; [reflexivity|].
  destruct (cmp x y <=? 0); [reflexivity|].
  rewrite IH. apply Permutation_swap.
Qed.

Lemma Array_sort_perm {A : Type} (cmp : A -> A -> Z) (l : list A) :
  Array_sort cmp l ≡ₚ l.
Proof.
  induction l as [|x l IH]; simpl; [reflexivity|].
  rewrite sort_insert_perm. now rewrite IH.
Qed.

Lemma descending_cons x y ts :
  descending (x :: y :: ts) = (Tag.count y <=? Tag.count x) && descending (y :: ts).
Proof. reflexivity. Qed.

Lemma descending_tail x ts : descending (x :: ts) = true -> descending ts = true.
Proof.
  destruct ts as [|y ts]; [reflexivity|].
  rewrite descending_cons. intros H. now apply andb_prop in H.
Qed.

Lemma sort_insert_descending x ts :
  descending ts = true -> descending (sort_insert by_count_desc x ts) = true.
Proof.
  induction ts as [|y ts IH]; intros H; [reflexivity|].
  simpl sort_insert. unfold by_count_desc at 1.
  destruct (Z.leb_spec (Tag.count y - Tag.count x) 0) as [Hle|Hgt].
  - rewrite descending_cons, H, andb_true_r. apply Z.leb_le. lia.
  - specialize (IH (descending_tail _ _ H)).
    destruct ts as [|z ts].
    + simpl. rewrite andb_true_r. apply Z.leb_le. lia.
    + simpl sort_insert in *. unfold by_count_desc in IH at 1 |- * at 1.
      rewrite descending_cons in H. apply andb_prop in H as [Hyz Hts].
      destruct (Tag.count z - Tag.count x <=? 0).
      * rewrite descending_cons, IH, andb_true_r. apply Z.leb_le. lia.
      * rewrite descending_cons, IH, andb_true_r. exact Hyz.
Qed.

Lemma Array_sort_descending ts :
  descending (Array_sort by_count_desc ts) = true.
Proof.
  induction ts as [|x ts IH]; [reflexivity|].
  simpl. now apply sort_insert_descending.
Qed.

(** The sort leaves a descending array as it is. *)
Lemma Array_sort_fixed ts :
  descending ts = true -> Array_sort by_count_desc ts = ts.
Proof.
  induction ts as [|x ts IH]; intros H; [reflexivity|].
  simpl. rewrite IH by exact (descending_tail _ _ H).
  destruct ts as [|y ts]; [reflexivity|].
  rewrite descending_cons in H. apply andb_prop in H as [Hxy _].
  simpl. unfold by_count_desc.
  apply Z.leb_le in Hxy.
  destruct (Z.leb_spec (Tag.count y - Tag.count x) 0); [reflexivity | lia].
Qed.

Lemma rendered_perm doc ts : rendered doc ts ≡ₚ ts.
Proof.
  unfold rendered. destruct (tagsCloud doc); [apply Array_sort_perm | reflexivity].
Qed.

End Sorting.

(** C10: when the tags of the store are not in descending order of count,
    a call of [getPopularTags] changes the array held by the store: it is
    left sorted, with the same tag records as before (each name with its
    count), and nothing else of the state changes; the result of the call
    is the head of that array.  The stored copy is not written. *)
Theorem getPopularTags_reorders_store (limit : Z) (s : State) :
  descending (tags s) = false ->
  let '(top, s') := getPopularTags limit s in
  tags s' <> tags s /\
  tags s' ≡ₚ tags s /\
  descending (tags s') = true /\
  top = slice0 limit (tags s') /\
  s' = set_tags (tags s') s.
Proof.
  intros H. unfold getPopularTags. simpl.
  repeat split.
  - intros E. rewrite <- E, Array_sort_descending in H. discriminate.
  - apply Array_sort_perm.
  - apply Array_sort_descending.
Qed.

Lemma getPopularTags_reorders_store_witness :
  descending (tags tagged) = false /\
  tags (snd (getPopularTags 10 tagged)) <> tags tagged /\
  tags (snd (getPopularTags 10 tagged)) ≡ₚ tags tagged.
Proof.
  pose proof (getPopularTags_reorders_store 10 tagged eq_refl) as H.
  destruct (getPopularTags 10 tagged) as [top s'].
  destruct H as (H1 & H2 & _).
  split; [reflexivity | split; assumption].
Defined.

(** On tags that are in descending order the call changes nothing. *)
Lemma getPopularTags_sorted_store (limit : Z) (s : State) :
  descending (tags s) = true -> snd (getPopularTags limit s) = s.
Proof.
  intros H. unfold getPopularTags. simpl.
  rewrite Array_sort_fixed by exact H. destruct s; reflexivity.
Qed.

(** ** Import and export *)






(** ** Folder ids *)

Section Slug.
Implicit Types (w r x : jsstring) (b : bool).

Lemma replace_ws_from_word b w x :
  w <> [] -> ws_free w ->
  replace_ws_from b (w ++ x) = w ++ replace_ws_from false x.
Proof.
  intros Hne Hw. revert b. induction Hw as [|c w Hc Hw IH]; intros b.
  - contradiction.
  - simpl. rewrite Hc. f_equal.
    destruct w as [|c' w]; [reflexivity|].
    apply IH. discriminate.
Qed.

Lemma replace_ws_from_free w x :
  ws_free w -> replace_ws_from false (w ++ x) = w ++ replace_ws_from false x.
Proof.
  intros Hw. destruct w as [|c w]; [reflexivity|].
  apply replace_ws_from_word; [discriminate | exact Hw].
Qed.

Lemma replace_ws_from_run_inside r x :
  all_ws r -> replace_ws_from true (r ++ x) = replace_ws_from true x.
Proof.
  intros Hr. induction Hr as [|c r Hc Hr IH]; [reflexivity|].
  simpl. rewrite Hc. exact IH.
Qed.

Lemma replace_ws_from_run r x :
  r <> [] -> all_ws r ->
  replace_ws_from false (r ++ x) = 45%N :: replace_ws_from true x.
Proof.
  intros Hne Hr. destruct Hr as [|c r Hc Hr]; [contradiction|].
  simpl. rewrite Hc. f_equal. now apply replace_ws_from_run_inside.
Qed.

Lemma replace_ws_from_runs rest x :
  runs_ok rest ->
  replace_ws_from false (join_runs rest ++ x) =
    hyphenate rest ++ replace_ws_from false x.
Proof.
  intros H. induction H as [|[r w] rest [[Hr1 Hr2] [Hw1 Hw2]] _ IH];
    [reflexivity|].
  simpl in *. rewrite <- !app_assoc.
  rewrite replace_ws_from_run by assumption.
  rewrite replace_ws_from_word by assumption.
  now rewrite IH, <- ?app_assoc.
Qed.

(** The shape of the result of [replace_ws] on any string: a leading word
    (maybe empty), runs of white space each followed by a word, and a
    trailing run (maybe empty). *)
Lemma replace_ws_shape w rest r :
  ws_free w -> runs_ok rest -> all_ws r ->
  replace_ws (w ++ join_runs rest ++ r) =
    w ++ hyphenate rest ++ (if r is [] then [] else [45%N]).
Proof.
  intros Hw Hrest Hr. unfold replace_ws.
  rewrite replace_ws_from_free by exact Hw.
  rewrite replace_ws_from_runs by exact Hrest.
  do 2 f_equal. destruct r as [|c r]; [reflexivity|].
  rewrite <- (app_nil_r (c :: r)).
  rewrite replace_ws_from_run; [reflexivity | discriminate | exact Hr].
Qed.

Lemma replace_ws_from_no_ws b x c :
  c ∈ replace_ws_from b x -> isWhiteSpace c = false.
Proof.
  revert b. induction x as [|d x IH]; intros b; simpl.
  - intros H. inversion H.
  - destruct (isWhiteSpace d) eqn:Ed.
    + destruct b; [apply IH|].
      intros [-> | H]%elem_of_cons; [reflexivity | now apply IH in H].
    + intros [-> | H]%elem_of_cons; [exact Ed | now apply IH in H].
Qed.
End Slug.

(** C8, as stated, fails: [createFolder] does not trim the name, so the
    white space before and after it becomes a hyphen too.  For the name of
    an [a] between two spaces the id is [-a-], where the replacement of the
    internal runs alone leaves the name as it is. *)
Lemma createFolder_hyphenates_outer_runs :
  let f := fst (createFolder asciiLower (js " a ") (js "#111") fresh) in
  Folder.id f = js "-a-" /\
  internal_runs_hyphenated (asciiLower (js " a ")) = js " a " /\
  Folder.id f <> internal_runs_hyphenated (asciiLower (js " a ")).
Proof. vm_compute. repeat apply conj; [reflexivity | reflexivity | discriminate]. Qed.

(** On a name with no white space before or after it, as the dialog of the
    folders passes it after [trim], every run is internal and the two
    readings agree. *)
Lemma replace_ws_internal_on_trimmed (s : jsstring) :
  leadingWs s = [] -> leadingWs (reverse s) = [] ->
  replace_ws s = internal_runs_hyphenated s.
Proof.
  intros Hl Hr.
  assert (Hts : forall x : jsstring, leadingWs x = [] -> trimStart x = x).
  { intros [|c x]; simpl; [reflexivity|].
    destruct (isWhiteSpace c); [discriminate | reflexivity]. }
  unfold internal_runs_hyphenated, trim.
  rewrite (Hts s Hl), Hl, (Hts (reverse s) Hr), Hr, reverse_involutive.
  simpl. now rewrite app_nil_r.
Qed.

(** C8, amended: [createFolder] gives a folder whose id is the lower-cased
    name with a hyphen for each run of white space, the runs before and
    after the name included (so that the id holds no white space), with the
    name and the colour as given and the count 0, and appends it to the
    folders, which it stores; it does not look for the id among the
    folders: a second call with a name of the same slug appends a second
    record with the same id. *)
Theorem createFolder_spec (toLowerCase : jsstring -> jsstring) (s : State)
    (name1 color1 name2 color2 : jsstring) :
  slugify toLowerCase name1 = slugify toLowerCase name2 ->
  let '(f1, s1) := createFolder toLowerCase name1 color1 s in
  let '(f2, s2) := createFolder toLowerCase name2 color2 s1 in
  f1 = Folder.mk (replace_ws (toLowerCase name1)) name1 color1 0 /\
  f2 = Folder.mk (replace_ws (toLowerCase name2)) name2 color2 0 /\
  (forall w rest r,
      toLowerCase name1 = w ++ join_runs rest ++ r ->
      ws_free w -> runs_ok rest -> all_ws r ->
      Folder.id f1 = w ++ hyphenate rest ++ (if r is [] then [] else [45%N])) /\
  (forall c, c ∈ Folder.id f1 -> isWhiteSpace c = false) /\
  folders s1 = folders s ++ [f1] /\
  folders s2 = folders s ++ [f1; f2] /\
  Folder.id f2 = Folder.id f1 /\
  workplanner_folders (localStorage s2) = Some (folders s2).
Proof.
  intros Heq. unfold createFolder. simpl.
  repeat apply conj; try reflexivity.
  - intros w rest r E Hw Hrest Hr. unfold slugify. rewrite E.
    now apply replace_ws_shape.
  - intros c. apply replace_ws_from_no_ws.
  - now rewrite <- app_assoc.
  - symmetry. exact Heq.
Qed.

Lemma createFolder_spec_witness :
  let '(f1, s1) := createFolder asciiLower (js "My Folder") (js "#111") fresh in
  let '(f2, s2) := createFolder asciiLower (js "my   folder") (js "#222") s1 in
  Folder.id f1 = js "my-folder" /\ Folder.id f2 = js "my-folder" /\
  Folder.name f1 <> Folder.name f2 /\
  folders s2 = folders fresh ++ [f1; f2].
Proof.
  pose proof (createFolder_spec asciiLower fresh
                (js "My Folder") (js "#111") (js "my   folder") (js "#222")
                eq_refl) as H.
  simpl in H. destruct H as (_ & _ & _ & _ & _ & H6 & _).
  simpl. repeat apply conj; [reflexivity | reflexivity | discriminate | exact H6].
Defined.

(** * Further properties of the code *)

(** ** The timer on its interval *)

Section TimerInvariant.
Implicit Types s : State.

Lemma showNotification_intervals m k s :
  intervals (showNotification m k s) = intervals s.
Proof. unfold showNotification. destruct (notificationArea _); reflexivity. Qed.

Lemma pausePomodoro_intervals s :
  timer_ok s -> intervals (pausePomodoro s) = [].
Proof.
  unfold timer_ok, pausePomodoro.
  destruct (pomodoroRunning s); simpl; [|tauto].
  intros [(h & Hi & Ht) _]. rewrite Ht. unfold clearInterval. simpl.
  rewrite Hi. rewrite filter_cons_False by (intros H; now apply H).
  reflexivity.
Qed.

Lemma timer_ok_paused s :
  pomodoroRunning s = false -> intervals s = [] -> timer_ok s.
Proof. intros Hr Hi. unfold timer_ok. now rewrite Hr. Qed.

Lemma timer_ok_start s : timer_ok s -> timer_ok (startPomodoro s).
Proof.
  intros H. destruct (pomodoroRunning s) eqn:Hr.
  - unfold startPomodoro. now rewrite Hr.
  - rewrite startPomodoro_paused by exact Hr.
    unfold timer_ok in *. rewrite Hr in H. simpl. rewrite H.
    split; [|reflexivity]. exists (nextInterval s). split; reflexivity.
Qed.

Lemma timer_ok_pause s : timer_ok s -> timer_ok (pausePomodoro s).
Proof.
  intros H. apply timer_ok_paused.
  - apply pausePomodoro_running.
  - now apply pausePomodoro_intervals.
Qed.

Lemma timer_ok_reset s : timer_ok s -> timer_ok (resetPomodoro s).
Proof.
  intros H. unfold resetPomodoro. apply timer_ok_paused; simpl.
  - apply pausePomodoro_running.
  - now apply pausePomodoro_intervals.
Qed.

Lemma timer_ok_finished s : timer_ok s -> timer_ok (pomodoroFinished s).
Proof.
  intros H. unfold pomodoroFinished. apply timer_ok_start, timer_ok_paused.
  - destruct (pomodoroMode (pausePomodoro s));
      rewrite showNotification_running; simpl; apply pausePomodoro_running.
  - destruct (pomodoroMode (pausePomodoro s));
      rewrite showNotification_intervals; simpl;
      now apply pausePomodoro_intervals.
Qed.

Lemma timer_ok_seconds v s : timer_ok s -> timer_ok (set_pomodoroSeconds v s).
Proof. intros H. exact H. Qed.

Lemma timer_ok_tick s : timer_ok s -> timer_ok (tick s).
Proof.
  intros H. unfold tick. simpl.
  destruct (pomodoroSeconds s - 1 <=? 0); [|exact H].
  apply timer_ok_finished. exact H.
Qed.

Lemma timer_ok_ticking s :
  timer_ok s -> pomodoroRunning s = true -> exists h, ticking s h.
Proof.
  unfold timer_ok, ticking. intros H Hr. rewrite Hr in H.
  destruct H as [(h & Hi & Ht) _]. exists h. repeat split; assumption.
Qed.

Lemma elapse_running s :
  timer_ok s -> pomodoroRunning s = true -> elapse s = tick s.
Proof.
  intros H Hr. destruct (timer_ok_ticking s H Hr) as [h Hh].
  now apply (elapse_ticking s h).
Qed.

Lemma elapse_paused s :
  timer_ok s -> pomodoroRunning s = false -> elapse s = s.
Proof.
  unfold timer_ok, elapse. intros H Hr. rewrite Hr in H. now rewrite H.
Qed.

Lemma timer_ok_elapse s : timer_ok s -> timer_ok (elapse s).
Proof.
  intros H. destruct (pomodoroRunning s) eqn:Hr.
  - rewrite elapse_running by assumption. now apply timer_ok_tick.
  - now rewrite elapse_paused.
Qed.

Lemma tick_running s :
  pomodoroRunning s = true -> pomodoroRunning (tick s) = true.
Proof.
  intros Hr. unfold tick. simpl.
  destruct (pomodoroSeconds s - 1 <=? 0); [|exact Hr].
  apply pomodoroFinished_running.
Qed.

(** What a tick of a running timer in mode [work] adds to the
    notifications. *)
Lemma tick_notifications s :
  pomodoroMode s = work ->
  notifications (tick s) = notifications s \/
  notifications (tick s) = notifications s ++ [(WorkTimeOver, success)].
Proof.
  intros Hm. unfold tick, updatePomodoroDisplay. simpl.
  destruct (pomodoroSeconds s - 1 <=? 0); [|now left].
  unfold pomodoroFinished. rewrite pausePomodoro_mode. simpl. rewrite Hm.
  set (p := pausePomodoro (set_pomodoroSeconds (pomodoroSeconds s - 1) s)).
  assert (Hn : notifications p = notifications s).
  { unfold p, pausePomodoro. simpl.
    destruct (pomodoroRunning s); simpl; [|reflexivity].
    destruct (pomodoroTimer s); reflexivity. }
  assert (Hr : pomodoroRunning p = false) by apply pausePomodoro_running.
  rewrite startPomodoro_paused
    by (rewrite showNotification_running; exact Hr).
  simpl. unfold showNotification. simpl.
  destruct (notificationArea (document p)); simpl; rewrite Hn; [now right | now left].
Qed.
End TimerInvariant.

(** X1: the timer is never on two intervals.  If, while the timer runs, the
    one armed interval is the one whose handle it holds (and the mode is
    [work]), and no interval is armed while it does not run, then the same
    is true after [startPomodoro], [pausePomodoro], [resetPomodoro] and
    after a second of the host. *)
Theorem timer_never_double_scheduled (s : State) :
  timer_ok s ->
  timer_ok (startPomodoro s) /\ timer_ok (pausePomodoro s) /\
  timer_ok (resetPomodoro s) /\ timer_ok (elapse s).
Proof.
  intros H. repeat apply conj.
  - now apply timer_ok_start.
  - now apply timer_ok_pause.
  - now apply timer_ok_reset.
  - now apply timer_ok_elapse.
Qed.

Lemma timer_never_double_scheduled_witness :
  timer_ok (startPomodoro fresh) /\
  timer_ok (elapse (startPomodoro (startPomodoro fresh))).
Proof.
  assert (H0 : timer_ok fresh) by reflexivity.
  destruct (timer_never_double_scheduled fresh H0) as (H1 & _).
  destruct (timer_never_double_scheduled (startPomodoro fresh) H1)
    as (H2 & _).
  destruct (timer_never_double_scheduled _ H2) as (_ & _ & _ & H3).
  split; assumption.
Defined.

(** X2: a running timer never stops by itself: after any number of
    seconds it is still running, still on one interval, and all that the
    seconds have added to the notifications are announcements of the end of
    the work time; the end of a break is never announced. *)
Theorem running_timer_keeps_running (n : nat) (s : State) :
  timer_ok s -> pomodoroRunning s = true ->
  let s' := elapse_n n s in
  pomodoroRunning s' = true /\ timer_ok s' /\
  exists k, notifications s' =
            notifications s ++ replicate k (WorkTimeOver, success).
Proof.
  intros H Hr. induction n as [|n (IHr & IHok & k & IHn)]; simpl.
  - repeat split; [assumption..|]. exists O. simpl. now rewrite app_nil_r.
  - unfold elapse_n in *. simpl Nat.iter.
    rewrite elapse_running by assumption.
    split; [now apply tick_running|].
    split; [now apply timer_ok_tick|].
    assert (Hm : pomodoroMode (Nat.iter n elapse s) = work).
    { unfold timer_ok in IHok. rewrite IHr in IHok. apply IHok. }
    destruct (tick_notifications _ Hm) as [-> | ->].
    + now exists k.
    + exists (S k). rewrite IHn, <- app_assoc. f_equal.
      change [(WorkTimeOver, success)] with (replicate 1 (WorkTimeOver, success)).
      rewrite <- replicate_add. f_equal. lia.
Qed.

Lemma running_timer_keeps_running_witness :
  pomodoroRunning (elapse_n 4000 (startPomodoro fresh)) = true /\
  exists k, notifications (elapse_n 4000 (startPomodoro fresh)) =
            replicate k (WorkTimeOver, success).
Proof.
  assert (H0 : timer_ok (startPomodoro fresh)) by (vm_compute; eauto).
  destruct (running_timer_keeps_running 4000 (startPomodoro fresh) H0 eq_refl)
    as (H1 & _ & k & H2).
  split; [exact H1 | exists k; exact H2].
Defined.

(** X3: a paused timer does not tick: after [pausePomodoro] any number of
    seconds leaves the whole state as the pause left it, with the seconds
    and the mode that the timer had when it was paused. *)
Theorem paused_timer_is_frozen (n : nat) (s : State) :
  timer_ok s ->
  let p := pausePomodoro s in
  elapse_n n p = p /\ pomodoroSeconds p = pomodoroSeconds s /\
  pomodoroMode p = pomodoroMode s.
Proof.
  intros H. simpl. split; [|split].
  - induction n as [|n IH]; [reflexivity|].
    unfold elapse_n in *. simpl Nat.iter. rewrite IH.
    apply elapse_paused; [now apply timer_ok_pause | apply pausePomodoro_running].
  - apply pausePomodoro_seconds.
  - apply pausePomodoro_mode.
Qed.

Lemma paused_timer_is_frozen_witness :
  pomodoroSeconds (elapse_n 100 (pausePomodoro (elapse_n 60 (startPomodoro fresh))))
  = 1440.
Proof.
  assert (H0 : timer_ok (elapse_n 60 (startPomodoro fresh)))
    by (vm_compute; eauto).
  destruct (paused_timer_is_frozen 100 _ H0) as (H1 & H2 & _).
  rewrite H1, H2. reflexivity.
Defined.

(** X4: while more than [k] seconds remain on a running timer, and no more
    than 2^53, so that every decrement of the source is exact, [k] seconds
    of the host take exactly [k] from the remaining seconds and change
    nothing else: no completion, no notification, the same interval. *)
Theorem countdown_by_seconds (k : nat) (s : State) :
  timer_ok s -> pomodoroRunning s = true ->
  Z.of_nat k < pomodoroSeconds s ->
  pomodoroSeconds s <= 2 ^ 53 ->
  elapse_n k s = set_pomodoroSeconds (pomodoroSeconds s - Z.of_nat k) s.
Proof.
  intros H Hr Hk _. destruct (timer_ok_ticking s H Hr) as [h Hh].
  now apply (elapse_n_countdown k s h).
Qed.

Lemma countdown_by_seconds_witness :
  elapse_n 1499 (startPomodoro fresh) =
  set_pomodoroSeconds 1 (startPomodoro fresh).
Proof.
  assert (H0 : timer_ok (startPomodoro fresh)) by (vm_compute; eauto).
  assert (Hb : pomodoroSeconds (startPomodoro fresh) <= 2 ^ 53)
    by (vm_compute; discriminate).
  exact (countdown_by_seconds 1499 (startPomodoro fresh) H0 eq_refl eq_refl Hb).
Defined.

(** ** Looking notes up, deleting and updating them *)

Section Lookup.
Context {A : Type}.
Implicit Types (p : A -> bool) (l : list A).

Lemma findIndex_None p l : findIndex p l = None -> List.find p l = None.
Proof.
  induction l as [|x l IH]; simpl; [reflexivity|].
  destruct (p x); [discriminate|].
  destruct (findIndex p l); [discriminate | intros _; now apply IH].
Qed.

(** [find] and [findIndex] stop at the same element. *)
Lemma findIndex_find p l k :
  findIndex p l = Some k -> List.find p l = l !! k.
Proof.
  revert k. induction l as [|x l IH]; intros k; simpl; [discriminate|].
  destruct (p x); [now intros [= <-]|].
  destruct (findIndex p l) as [j|]; simpl; [|discriminate].
  intros [= <-]. now apply IH.
Qed.


(** Writing at the index found an element that passes the test leaves the
    index found. *)
Lemma findIndex_insert p l k y :
  findIndex p l = Some k -> p y = true ->
  findIndex p (<[k := y]> l) = Some k.
Proof.
  revert k. induction l as [|x l IH]; intros k; simpl; [discriminate|].
  destruct (p x) eqn:Ex.
  - intros [= <-] Hy. simpl. now rewrite Hy.
  - destruct (findIndex p l) as [j|]; simpl; [|discriminate].
    intros [= <-] Hy. simpl. rewrite Ex. now rewrite (IH j eq_refl Hy).
Qed.

Lemma find_delete_other p q l k :
  findIndex q l = Some k ->
  (forall x, q x = true -> p x = false) ->
  List.find p (delete k l) = List.find p l.
Proof.
  revert k. induction l as [|x l IH]; intros k; simpl; [discriminate|].
  destruct (q x) eqn:Ex.
  - intros [= <-] Hq. simpl. now rewrite (Hq x Ex).
  - destruct (findIndex q l) as [j|]; simpl; [|discriminate].
    intros [= <-] Hq. simpl. destruct (p x); [reflexivity|]. now apply IH.
Qed.
End Lookup.

Section NotesMore.
Implicit Types (s : State) (l : list Note.t).

Lemma find_absent_id i l : i ∉ Note.id <$> l -> List.find (has_id i) l = None.
Proof.
  induction l as [|x l IH]; simpl; [reflexivity|].
  rewrite not_elem_of_cons. intros [Hne Hl].
  unfold has_id at 1. rewrite bool_decide_eq_false_2 by congruence.
  now apply IH.
Qed.

Lemma find_delete_same i l k :
  NoDup (Note.id <$> l) -> findIndex (has_id i) l = Some k ->
  List.find (has_id i) (delete k l) = None.
Proof.
  revert k. induction l as [|x l IH]; intros k; simpl; [discriminate|].
  rewrite NoDup_cons. intros [Hx Hl].
  destruct (has_id i x) eqn:Ex.
  - intros [= <-]. simpl. apply find_absent_id.
    unfold has_id in Ex. apply bool_decide_eq_true_1 in Ex. now rewrite <- Ex.
  - destruct (findIndex (has_id i) l) as [j|]; simpl; [|discriminate].
    intros [= <-]. simpl. rewrite Ex. now apply IH.
Qed.

Lemma NoDup_ids_delete l k :
  NoDup (Note.id <$> l) -> NoDup (Note.id <$> delete k l).
Proof.
  intros H. apply (sublist_NoDup _ (Note.id <$> l)); [exact H|].
  apply fmap_sublist, sublist_delete.
Qed.

Lemma deleteNote_notes i s :
  notes (deleteNote i s) =
    match findIndex (has_id i) (notes s) with
    | Some k => delete k (notes s)
    | None => notes s
    end.
Proof. unfold deleteNote. destruct (findIndex _ _); reflexivity. Qed.

Lemma has_id_merge now i old u :
  Updates.id u = None -> has_id i (merge now old u) = has_id i old.
Proof. intros H. unfold has_id, merge. simpl. now rewrite H. Qed.
End NotesMore.

(** X5: [createNote] puts the new note first, with the length of its
    content as count and no star, stores the notes, and [getNote] on the id
    of the new note finds the new note, also when an older note has the
    same id. *)
Theorem createNote_prepends_and_is_found
    (tid : Z) (tc tu : timestamp) (title content folder : jsstring)
    (tags : list jsstring) (s : State) :
  let '(n, s') := createNote tid tc tu title content tags folder s in
  notes s' = n :: notes s /\
  getNote (Note.id n) s' = Some n /\
  Note.wordCount n = Z.of_nat (length content) /\
  Note.starred n = false /\
  workplanner_notes (localStorage s') = Some (notes s').
Proof.
  unfold createNote, getNote. simpl. unfold has_id. simpl.
  rewrite bool_decide_eq_true_2 by reflexivity. repeat apply conj; reflexivity.
Qed.

(** X6: in a store where no two notes have the same id, [deleteNote] makes
    [getNote] on the deleted id find nothing, leaves what [getNote] finds
    on every other id, and keeps the ids of the notes distinct. *)
Theorem deleteNote_removes_the_note (i : jsstring) (s : State) :
  unique_ids s ->
  getNote i (deleteNote i s) = None /\
  (forall j, j <> i -> getNote j (deleteNote i s) = getNote j s) /\
  unique_ids (deleteNote i s).
Proof.
  unfold unique_ids, getNote. intros H. rewrite deleteNote_notes.
  destruct (findIndex (has_id i) (notes s)) as [k|] eqn:E.
  - repeat apply conj.
    + now apply find_delete_same.
    + intros j Hj. apply (find_delete_other _ (has_id i)); [exact E|].
      intros x Hx. unfold has_id in *. apply bool_decide_eq_true_1 in Hx.
      apply bool_decide_eq_false_2. congruence.
    + now apply NoDup_ids_delete.
  - repeat apply conj; [now apply findIndex_None | reflexivity | exact H].
Qed.

Lemma deleteNote_removes_the_note_witness :
  getNote (js "1700000000002") (deleteNote (js "1700000000002") tagged) = None /\
  getNote (js "1700000000003") (deleteNote (js "1700000000002") tagged)
  = getNote (js "1700000000003") tagged.
Proof.
  assert (H : unique_ids tagged).
  { unfold unique_ids.
    apply (bool_decide_eq_true_1 (NoDup (Note.id <$> notes tagged))).
    reflexivity. }
  destruct (deleteNote_removes_the_note (js "1700000000002") tagged H)
    as (H1 & H2 & _).
  split; [exact H1 | apply H2; discriminate].
Defined.

(** X7: [updateNote] on an id that is found writes one note only: the
    number of notes and every note at another index stay as they are, and
    so do the tasks, the settings and the timer; the note written keeps
    its id and its time of creation unless the update holds these keys. *)
Theorem updateNote_touches_one_note
    (now : timestamp) (i : jsstring) (u : Updates.t) (s : State)
    (index : nat) (old : Note.t) :
  findIndex (has_id i) (notes s) = Some index ->
  notes s !! index = Some old ->
  let s' := updateNote now i u s in
  length (notes s') = length (notes s) /\
  (forall j, j <> index -> notes s' !! j = notes s !! j) /\
  (exists n, notes s' !! index = Some n /\
     Note.id n = default (Note.id old) (Updates.id u) /\
     Note.createdAt n = default (Note.createdAt old) (Updates.createdAt u) /\
     Note.updatedAt n = now) /\
  tasks s' = tasks s /\ settings s' = settings s /\
  pomodoroSeconds s' = pomodoroSeconds s /\
  pomodoroRunning s' = pomodoroRunning s.
Proof.
  intros Hf Hl. simpl.
  rewrite (updateNote_found _ _ _ _ _ _ Hf Hl).
  repeat apply conj.
  - apply length_insert.
  - intros j Hj. apply list_lookup_insert_ne. congruence.
  - exists (merge now old u). split; [|repeat split].
    apply list_lookup_insert_eq. now apply lookup_lt_Some in Hl.
  - unfold updateNote. rewrite Hf, Hl. destruct (Updates.tags u); reflexivity.
  - unfold updateNote. rewrite Hf, Hl. destruct (Updates.tags u); reflexivity.
  - unfold updateNote. rewrite Hf, Hl. destruct (Updates.tags u); reflexivity.
  - unfold updateNote. rewrite Hf, Hl. destruct (Updates.tags u); reflexivity.
Qed.

Lemma updateNote_touches_one_note_witness :
  length (notes (updateNote 1700000000100 (js "1700000000002")
                   (onlyContent (js "changed")) tagged)) = 3%nat /\
  notes (updateNote 1700000000100 (js "1700000000002")
           (onlyContent (js "changed")) tagged) !! 0%nat
  = notes tagged !! 0%nat.
Proof.
  destruct (notes tagged !! 1%nat) as [old|] eqn:E; [|discriminate E].
  destruct (updateNote_touches_one_note 1700000000100 (js "1700000000002")
              (onlyContent (js "changed")) tagged 1 old eq_refl E)
    as (H1 & H2 & _).
  split; [exact H1 | apply H2; discriminate].
Defined.

(** X8: [toggleStar] on an id that is found flips the star of the first
    note with that id, stamps it with the clock and sets its count to the
    length of its content; a second [toggleStar] gives the star back, so
    that the notes are those before, but for the stamp and the count of
    that note. *)
Theorem toggleStar_twice (now1 now2 : timestamp) (i : jsstring) (s : State)
    (index : nat) (old : Note.t) :
  findIndex (has_id i) (notes s) = Some index ->
  notes s !! index = Some old ->
  notes (toggleStar now1 i s) =
    <[index := Note.mk (Note.id old) (Note.title old) (Note.content old)
                 (Note.tags old) (Note.folder old) (negb (Note.starred old))
                 (Note.createdAt old) now1
                 (Z.of_nat (length (Note.content old)))]> (notes s) /\
  notes (toggleStar now2 i (toggleStar now1 i s)) =
    <[index := Note.mk (Note.id old) (Note.title old) (Note.content old)
                 (Note.tags old) (Note.folder old) (Note.starred old)
                 (Note.createdAt old) now2
                 (Z.of_nat (length (Note.content old)))]> (notes s).
Proof.
  intros Hf Hl.
  assert (Hg : getNote i s = Some old).
  { unfold getNote. rewrite (findIndex_find _ _ _ Hf). exact Hl. }
  assert (H1 : notes (toggleStar now1 i s) =
               <[index := merge now1 old (onlyStarred (negb (Note.starred old)))]>
                 (notes s)).
  { unfold toggleStar. rewrite Hg. unfold updateStats, renderNotes.
    now apply updateNote_found. }
  split; [exact H1|].
  set (mid := merge now1 old (onlyStarred (negb (Note.starred old)))) in *.
  assert (Hf' : findIndex (has_id i) (notes (toggleStar now1 i s)) = Some index).
  { rewrite H1. apply findIndex_insert; [exact Hf|].
    unfold mid. rewrite has_id_merge by reflexivity.
    destruct (findIndex_lookup _ _ _ Hf) as (x & Hx & Hp). congruence. }
  assert (Hl' : notes (toggleStar now1 i s) !! index = Some mid).
  { rewrite H1. apply list_lookup_insert_eq. now apply lookup_lt_Some in Hl. }
  assert (Hg' : getNote i (toggleStar now1 i s) = Some mid).
  { unfold getNote. rewrite (findIndex_find _ _ _ Hf'). exact Hl'. }
  unfold toggleStar at 1. rewrite Hg'. unfold updateStats, renderNotes.
  rewrite (updateNote_found _ _ _ _ _ _ Hf' Hl'), H1.
  rewrite list_insert_insert_eq. unfold mid, merge. simpl.
  now rewrite negb_involutive.
Qed.

Lemma toggleStar_twice_witness :
  notes (toggleStar 1700000000003 (js "1700000000003")
           (toggleStar 1700000000003 (js "1700000000003") tagged))
  = notes tagged.
Proof.
  destruct (notes tagged !! 0%nat) as [old|] eqn:E; [|discriminate E].
  destruct (toggleStar_twice 1700000000003 1700000000003
              (js "1700000000003") tagged 0 old eq_refl E) as (_ & H2).
  rewrite H2. injection E as <-. reflexivity.
Defined.

(** ** The counts of the tags *)

Section TagCounts.
Implicit Types (ts : list Tag.t) (l : list jsstring) (name tag : jsstring).





Lemma existsb_findIndex {A : Type} (p : A -> bool) (xs : list A) :
  existsb p xs = false -> findIndex p xs = None.
Proof.
  induction xs as [|x xs IH]; simpl; [reflexivity|].
  destruct (p x); simpl; [discriminate|]. intros H. now rewrite IH.
Qed.





Lemma names_alter_bump k ts : Tag.name <$> alter bump k ts = Tag.name <$> ts.
Proof.
  revert k. induction ts as [|t ts IH]; intros [|k]; simpl; try reflexivity.
  f_equal. apply IH.
Qed.

Lemma existsb_named_false tag ts :
  existsb (named tag) ts = false -> tag ∉ Tag.name <$> ts.
Proof.
  induction ts as [|t ts IH]; simpl; [intros _; apply not_elem_of_nil|].
  intros H. apply orb_false_elim in H as [Ht Hts].
  rewrite not_elem_of_cons. split; [|now apply IH].
  unfold named in Ht. apply bool_decide_eq_false_1 in Ht. congruence.
Qed.

Lemma NoDup_names_updateTag tag ts :
  NoDup (Tag.name <$> ts) -> NoDup (Tag.name <$> updateTag ts tag).
Proof.
  intros H. unfold updateTag.
  destruct (existsb (named tag) ts) eqn:E; simpl.
  - destruct (findIndex (named tag) ts); [|exact H].
    now rewrite names_alter_bump.
  - rewrite fmap_app. simpl. apply NoDup_app. repeat split.
    + exact H.
    + intros x Hx Hin. apply list_elem_of_singleton in Hin. subst x.
      now apply (existsb_named_false tag ts E).
    + apply NoDup_singleton.
Qed.

Lemma NoDup_names_foldl l ts :
  NoDup (Tag.name <$> ts) -> NoDup (Tag.name <$> foldl updateTag ts l).
Proof.
  revert ts. induction l as [|x l IH]; intros ts H; simpl; [exact H|].
  now apply IH, NoDup_names_updateTag.
Qed.



End TagCounts.


(** X10: [updateTags] keeps the names of the tags distinct: when no two
    tags of the store have the same name, none have after the call. *)
Theorem updateTags_keeps_names_distinct (newTags : list jsstring) (s : State) :
  NoDup (Tag.name <$> tags s) ->
  NoDup (Tag.name <$> tags (updateTags newTags s)).
Proof. intros H. simpl. now apply NoDup_names_foldl. Qed.

Lemma updateTags_keeps_names_distinct_witness :
  NoDup (Tag.name <$> tags (updateTags [js "b"; js "c"; js "c"] tagged)).
Proof.
  apply (updateTags_keeps_names_distinct [js "b"; js "c"; js "c"] tagged).
  apply (bool_decide_eq_true_1 (NoDup (Tag.name <$> tags tagged))).
  reflexivity.
Defined.






(** ** Views of the notes *)

Section ViewFacts.
Implicit Types (s sub a b : jsstring).

Lemma prefixOf_spec sub s : prefixOf sub s = true <-> exists b, s = sub ++ b.
Proof.
  revert s. induction sub as [|c sub IH]; intros s; simpl.
  - split; [intros _; now exists s | reflexivity].
  - destruct s as [|d s]; simpl.
    + split; [discriminate | intros [b Hb]; discriminate Hb].
    + rewrite andb_true_iff, N.eqb_eq, IH. split.
      * intros [-> [b ->]]. now exists b.
      * intros [b [= -> ->]]. split; [reflexivity | now exists b].
Qed.

Lemma includes_spec s sub : includes s sub = true <-> occurs sub s.
Proof.
  unfold occurs. induction s as [|d s IH]; simpl.
  - rewrite orb_false_r, prefixOf_spec. split.
    + intros [b Hb]. exists [], b. exact Hb.
    + intros (a & b & H). destruct a; simpl in H.
      * now exists b.
      * discriminate H.
  - rewrite orb_true_iff, prefixOf_spec, IH. split.
    + intros [[b Hb] | (a & b & ->)].
      * exists [], b. exact Hb.
      * now exists (d :: a), b.
    + intros (a & b & H). destruct a as [|e a]; simpl in H.
      * left. now exists b.
      * right. injection H as -> ->. now exists a, b.
Qed.
End ViewFacts.

(** X14: for a folder whose id is not one of the names [all], [starred]
    and [today], the view of the folder has as many notes as the count of
    the folder says, whenever the counts are those of the last
    [updateFolderCounts]. *)
Theorem folder_view_matches_count
    (toDateString : timestamp -> jsstring) (now : timestamp) (s : State)
    (k : nat) (f : Folder.t) :
  counts_ok s -> folders s !! k = Some f -> ~ reserved (Folder.id f) ->
  Z.of_nat (length (getNotesByFolder toDateString now (Folder.id f) s))
  = Folder.count f.
Proof.
  intros Hc Hk Hr. unfold getNotesByFolder, reserved in *.
  rewrite !bool_decide_eq_false_2 by tauto.
  unfold counts_ok in Hc. rewrite Forall_forall in Hc.
  symmetry. apply Hc. now apply list_elem_of_lookup_2 in Hk.
Qed.

Lemma folder_view_matches_count_witness :
  Z.of_nat (length (getNotesByFolder utcDay 1700000000009 (js "work") filed)) = 1.
Proof.
  pose (f := Folder.mk (js "work") [24037; 20316]%N (js "#3b82f6") 1).
  assert (Hc : counts_ok filed).
  { unfold counts_ok.
    apply (bool_decide_eq_true_1
             (Forall (fun f => Folder.count f = notes_in (notes filed) (Folder.id f))
                (folders filed))).
    vm_compute. reflexivity. }
  assert (Hk : folders filed !! 0%nat = Some f) by (vm_compute; reflexivity).
  assert (Hr : ~ reserved (Folder.id f)).
  { intros [H | [H | H]]; vm_compute in H; discriminate H. }
  exact (folder_view_matches_count utcDay 1700000000009 filed 0 f Hc Hk Hr).
Defined.

(** X15: every view keeps the order of the store: the result of
    [getNotesByFolder] and the result of [searchNotes] are the notes of the
    store with some of them left out.  The view [all] and the search with
    the empty query leave none out, so the name [all] never selects the
    notes of a folder of that id. *)
Theorem views_keep_the_order
    (toDateString : timestamp -> jsstring) (toLowerCase : jsstring -> jsstring)
    (now : timestamp) (folderId query : jsstring) (s : State) :
  getNotesByFolder toDateString now folderId s `sublist_of` notes s /\
  searchNotes toLowerCase query s `sublist_of` notes s /\
  getNotesByFolder toDateString now (js "all") s = notes s /\
  searchNotes toLowerCase [] s = notes s.
Proof.
  unfold getNotesByFolder, searchNotes. repeat apply conj; try reflexivity.
  - repeat case_bool_decide; first [reflexivity | apply sublist_filter].
  - destruct (negb (truthy query)); [reflexivity | apply sublist_filter].
Qed.

(** X16: with a query that is not empty, [searchNotes] returns exactly the
    notes of the store in which the lower-cased query occurs in the
    lower-cased title, in the lower-cased content or in one of the
    lower-cased tags. *)
Theorem searchNotes_finds_occurrences
    (toLowerCase : jsstring -> jsstring) (query : jsstring) (s : State)
    (n : Note.t) :
  query <> [] ->
  n ∈ searchNotes toLowerCase query s <->
  n ∈ notes s /\
  (occurs (toLowerCase query) (toLowerCase (Note.title n)) \/
   occurs (toLowerCase query) (toLowerCase (Note.content n)) \/
   exists tag, tag ∈ Note.tags n /\
               occurs (toLowerCase query) (toLowerCase tag)).
Proof.
  intros Hq. unfold searchNotes. destruct query as [|c q]; [contradiction|].
  simpl negb. cbv iota. rewrite list_elem_of_filter. unfold matches.
  rewrite !orb_true_iff, !includes_spec, existsb_exists.
  split.
  - intros [[[H | H] | (tag & Hin & H)] Hn]; (split; [exact Hn|]).
    + now left.
    + right. now left.
    + right. right. exists tag. rewrite list_elem_of_In.
      split; [exact Hin | now apply includes_spec].
  - intros [Hn [H | [H | (tag & Hin & H)]]]; (split; [|exact Hn]).
    + left. now left.
    + left. now right.
    + right. exists tag. rewrite <- list_elem_of_In.
      split; [exact Hin | now apply includes_spec].
Qed.

Lemma searchNotes_finds_occurrences_witness :
  exists n, n ∈ searchNotes asciiLower (js "SHIP") filed /\
            Note.title n = js "Plan".
Proof.
  destruct (notes filed !! 0%nat) as [n|] eqn:E; [|discriminate E].
  exists n. split.
  - apply (searchNotes_finds_occurrences asciiLower (js "SHIP") filed n
             ltac:(discriminate)).
    split; [now apply list_elem_of_lookup_2 in E|].
    right. left. injection E as <-. exists [], (js " it"). reflexivity.
  - injection E as <-. reflexivity.
Defined.

(** ** Tasks *)

Section TaskFacts.
Context {A : Type} (P : A -> Prop) `{!forall x, Decision (P x)}.
Implicit Types (l : list A).

Lemma length_filter_insert l i x y :
  l !! i = Some x ->
  (length (filter P (<[i := y]> l)) + (if decide (P x) then 1 else 0) =
   length (filter P l) + (if decide (P y) then 1 else 0))%nat.
Proof.
  revert i. induction l as [|z l IH]; intros [|i]; simpl; try discriminate.
  - intros [= ->]. rewrite !filter_cons.
    destruct (decide (P x)), (decide (P y)); simpl; lia.
  - intros Hi. specialize (IH i Hi). rewrite !filter_cons.
    destruct (decide (P z)); simpl; lia.
Qed.

Lemma length_filter_delete l i x :
  l !! i = Some x ->
  (length (filter P (delete i l)) + (if decide (P x) then 1 else 0) =
   length (filter P l))%nat.
Proof.
  revert i. induction l as [|z l IH]; intros [|i]; simpl; try discriminate.
  - intros [= ->]. rewrite filter_cons.
    destruct (decide (P x)); simpl; lia.
  - intros Hi. specialize (IH i Hi). rewrite !filter_cons.
    destruct (decide (P z)); simpl; lia.
Qed.
End TaskFacts.

(** X17: [createTask] puts the new task last in its column and leaves the
    other columns as they are; a task created with no column is in [todo],
    has the priority [medium], no due date and no tags; the tasks are
    stored, and the notes, folders and tags are not touched. *)
Theorem createTask_appends_to_its_column
    (tid : Z) (tc : timestamp) (title : jsstring)
    (description column : option jsstring) (s : State) :
  let '(t, s') := createTask tid tc title description column s in
  Task.column t = default (js "todo") column /\
  Task.priority t = js "medium" /\ Task.dueDate t = None /\ Task.tags t = [] /\
  (forall c, getTasksByColumn c s' =
             getTasksByColumn c s ++
             (if bool_decide (Task.column t = c) then [t] else [])) /\
  workplanner_tasks (localStorage s') = Some (tasks s') /\
  notes s' = notes s /\ folders s' = folders s /\ tags s' = tags s.
Proof.
  unfold createTask. simpl. repeat apply conj; try reflexivity.
  intros c. unfold getTasksByColumn. simpl.
  rewrite filter_app, filter_cons, filter_nil. simpl.
  destruct (decide (default (js "todo") column = c)) as [E|E].
  - now rewrite bool_decide_eq_true_2.
  - now rewrite bool_decide_eq_false_2.
Qed.

(** X18: moving a task to a column, as the drop on a column of the board
    does with [updateTask], takes one from the count of the column the task
    was in and adds one to the count of the column it is moved to; every
    other count, the number of tasks and the other fields of the task stay,
    and the tasks are stored. *)
Theorem updateTask_moves_between_columns
    (i target : jsstring) (s : State) (index : nat) (old : Task.t) :
  findIndex (task_has_id i) (tasks s) = Some index ->
  tasks s !! index = Some old ->
  let s' := updateTask i (TaskUpdates.onlyColumn target) s in
  (forall c, columnCount c s' + inColumn c old =
             columnCount c s + (if bool_decide (target = c) then 1 else 0)) /\
  tasks s' !! index =
    Some (Task.mk (Task.id old) (Task.title old) (Task.description old) target
            (Task.createdAt old) (Task.dueDate old) (Task.priority old)
            (Task.tags old)) /\
  length (tasks s') = length (tasks s) /\
  workplanner_tasks (localStorage s') = Some (tasks s').
Proof.
  intros Hf Hl s'. subst s'. unfold updateTask. rewrite Hf, Hl. simpl.
  repeat apply conj; try reflexivity.
  - intros c. unfold columnCount, inColumn, getTasksByColumn. simpl.
    pose proof (length_filter_insert (fun t => Task.column t = c) (tasks s)
                  index old (mergeTask old (TaskUpdates.onlyColumn target)) Hl)
      as H.
    simpl in H.
    destruct (decide (Task.column old = c)) as [E1|E1],
             (decide (target = c)) as [E2|E2];
      rewrite ?(bool_decide_eq_true_2 _ E1), ?(bool_decide_eq_false_2 _ E1),
              ?(bool_decide_eq_true_2 _ E2), ?(bool_decide_eq_false_2 _ E2);
      lia.
  - apply list_lookup_insert_eq. now apply lookup_lt_Some in Hl.
  - apply length_insert.
Qed.

Lemma updateTask_moves_between_columns_witness :
  exists old, tasks board !! 0%nat = Some old /\
    forall c,
      columnCount c (updateTask (js "1700000000005")
                       (TaskUpdates.onlyColumn (js "done")) board)
      + inColumn c old
      = columnCount c board + (if bool_decide (js "done" = c) then 1 else 0).
Proof.
  pose (old := Task.mk (js "1700000000005") (js "t1") [] (js "todo")
                 1700000000005 None (js "medium") []).
  assert (Hf : findIndex (task_has_id (js "1700000000005")) (tasks board)
               = Some 0%nat) by (vm_compute; reflexivity).
  assert (Hl : tasks board !! 0%nat = Some old) by (vm_compute; reflexivity).
  exists old. split; [exact Hl|].
  exact (proj1 (updateTask_moves_between_columns (js "1700000000005")
                  (js "done") board 0 old Hf Hl)).
Defined.

(** X19: [deleteTask] on an id that is found takes the first task with that
    id out: the count of its column goes down by one and the other counts
    stay, and the tasks are stored; [deleteTask] and [updateTask] on an id
    that no task has leave the whole state as it is. *)
Theorem deleteTask_takes_one_task (i : jsstring) (u : TaskUpdates.t) (s : State) :
  match findIndex (task_has_id i) (tasks s) with
  | Some index =>
      exists old, tasks s !! index = Some old /\ Task.id old = i /\
        tasks (deleteTask i s) = delete index (tasks s) /\
        (forall c, columnCount c (deleteTask i s) + inColumn c old =
                   columnCount c s) /\
        workplanner_tasks (localStorage (deleteTask i s)) =
          Some (tasks (deleteTask i s))
  | None => deleteTask i s = s /\ updateTask i u s = s
  end.
Proof.
  unfold deleteTask, updateTask.
  destruct (findIndex (task_has_id i) (tasks s)) as [index|] eqn:Hf;
    [|split; reflexivity].
  destruct (findIndex_lookup _ _ _ Hf) as (old & Hl & Hp).
  exists old. repeat apply conj; try reflexivity.
  - exact Hl.
  - unfold task_has_id in Hp. now apply bool_decide_eq_true_1 in Hp.
  - intros c. unfold columnCount, inColumn, getTasksByColumn. simpl.
    pose proof (length_filter_delete (fun t => Task.column t = c) (tasks s)
                  index old Hl) as H.
    destruct (decide (Task.column old = c)) as [E|E];
      rewrite ?(bool_decide_eq_true_2 _ E), ?(bool_decide_eq_false_2 _ E); lia.
Qed.

(** ** Start-up and reload *)

Section Startup.
Implicit Types (s : State) (st : Storage) (doc : Document).

(** The folders that [loadData] takes from the storage: the four default
    folders when the storage has none. *)
Lemma loadData_folders st doc :
  folders (newApp st doc) =
    recount (default [] (workplanner_notes st)) <$>
      (match workplanner_folders st with
       | Some (f :: fs) => f :: fs
       | Some [] | None => defaultFolders
       end).
Proof.
  destruct st as [n f t se tg]. unfold newApp, init, loadData. simpl.
  destruct f as [[|f fs]|]; simpl;
    destruct (Settings.is_empty (default Settings.empty se)); reflexivity.
Qed.

Lemma loadData_notes st doc :
  notes (newApp st doc) = default [] (workplanner_notes st).
Proof.
  destruct st as [n f t se tg]. unfold newApp, init, loadData. simpl.
  destruct f as [[|f fs]|]; simpl;
    destruct (Settings.is_empty (default Settings.empty se)); reflexivity.
Qed.

Lemma loadData_tags st doc :
  tags (newApp st doc) = default [] (workplanner_tags st).
Proof.
  destruct st as [n f t se tg]. unfold newApp, init, loadData. simpl.
  destruct f as [[|f fs]|]; simpl;
    destruct (Settings.is_empty (default Settings.empty se)); reflexivity.
Qed.



Lemma loadData_stored_folders st doc :
  workplanner_folders (localStorage (newApp st doc)) =
    Some (folders (newApp st doc)).
Proof.
  destruct st as [n f t se tg]. unfold newApp, init, loadData. simpl.
  destruct f as [[|f fs]|]; simpl;
    destruct (Settings.is_empty (default Settings.empty se)); reflexivity.
Qed.

Lemma recount_recount (ns : list Note.t) (fs : list Folder.t) :
  recount ns <$> (recount ns <$> fs) = recount ns <$> fs.
Proof. rewrite <- list_fmap_compose. reflexivity. Qed.
End Startup.


(** X21: what [createNote] stores is what a restart loads: an application
    started on the storage that [createNote] leaves has the notes and the
    tags of the store after the call, and its folders too when the store had
    folders; a store with no folder comes back with the four default
    folders, counted against the notes. *)
Theorem createNote_survives_reload
    (tid : Z) (tc tu : timestamp) (title content folder : jsstring)
    (noteTags : list jsstring) (s : State) (doc : Document) :
  let '(n, s') := createNote tid tc tu title content noteTags folder s in
  let r := newApp (localStorage s') doc in
  notes r = notes s' /\ tags r = tags s' /\
  folders r = match folders s with
              | [] => recount (notes s') <$> defaultFolders
              | _ :: _ => folders s'
              end.
Proof.
  unfold createNote. cbv zeta.
  rewrite loadData_notes, loadData_tags, loadData_folders. simpl.
  repeat apply conj; try reflexivity.
  destruct (folders s) as [|f fs]; [reflexivity|].
  change (recount ?ns f :: (recount ?ns <$> fs)) with (recount ns <$> (f :: fs)).
  apply (recount_recount _ (f :: fs)).
Qed.

(** X22: an empty list of folders is not kept over a restart: on a storage
    with no folders, or with the empty list of folders, the application
    starts with the four default folders, counted against the stored notes,
    and stores them; on a storage with folders it starts with these, their
    counts computed again. *)
Theorem start_up_seeds_folders (st : Storage) (doc : Document) :
  folders (newApp st doc) =
    recount (default [] (workplanner_notes st)) <$>
      (match workplanner_folders st with
       | Some (f :: fs) => f :: fs
       | Some [] | None => defaultFolders
       end) /\
  notes (newApp st doc) = default [] (workplanner_notes st) /\
  workplanner_folders (localStorage (newApp st doc)) =
    Some (folders (newApp st doc)).
Proof.
  repeat apply conj.
  - apply loadData_folders.
  - apply loadData_notes.
  - apply loadData_stored_folders.
Qed.

(** ** Theme *)

(** X23: [toggleTheme] writes [light] when the page shows [dark] and [dark]
    in every other case (also when the page shows no theme or one that is
    neither), stores the settings with that theme and nothing else changed,
    so that [setupTheme] shows it again; toggling once more, with the page
    showing what was written, gives the other of the two themes, and a third
    time the first again. *)
Theorem toggleTheme_alternates (currentTheme : option jsstring) (s : State) :
  let '(t1, s1) := toggleTheme currentTheme s in
  let '(t2, s2) := toggleTheme (Some t1) s1 in
  let '(t3, s3) := toggleTheme (Some t2) s2 in
  t1 = (if bool_decide (currentTheme = Some (js "dark")) then js "light"
        else js "dark") /\
  setupTheme s1 = t1 /\ setupTheme s2 = t2 /\
  t2 <> t1 /\ t3 = t1 /\
  settings s3 = settings s1 /\
  Settings.editor (settings s1) = Settings.editor (settings s) /\
  Settings.pomodoro (settings s1) = Settings.pomodoro (settings s) /\
  Settings.autoSave (settings s1) = Settings.autoSave (settings s) /\
  workplanner_settings (localStorage s1) = Some (settings s1) /\
  collections s1 = (notes s, folders s, tasks s, settings s1, tags s).
Proof.
  unfold toggleTheme. cbv zeta.
  destruct (bool_decide (currentTheme = Some (js "dark")));
    repeat apply conj; try reflexivity; discriminate.
Qed.

(** ** The most used tags *)

Section Popular.
Implicit Types (ts : list Tag.t) (x : Tag.t).

Lemma descending_head x ts :
  descending (x :: ts) = true ->
  Forall (fun u => Tag.count u <= Tag.count x) ts.
Proof.
  revert x. induction ts as [|y ts IH]; intros x H; [constructor|].
  rewrite descending_cons in H. apply andb_prop in H as [Hxy Hts].
  apply Z.leb_le in Hxy. constructor; [exact Hxy|].
  eapply Forall_impl; [apply (IH y Hts)|]. intros u Hu. simpl in Hu. lia.
Qed.

Lemma descending_split ts1 ts2 :
  descending (ts1 ++ ts2) = true ->
  forall t u, t ∈ ts1 -> u ∈ ts2 -> Tag.count u <= Tag.count t.
Proof.
  induction ts1 as [|x ts1 IH]; intros H t u Ht Hu; [inversion Ht|].
  apply elem_of_cons in Ht as [-> | Ht].
  - apply descending_head in H. rewrite Forall_forall in H.
    apply H. apply elem_of_app. now right.
  - apply (IH (descending_tail _ _ H) t u Ht Hu).
Qed.

(** An insertion passes only tags of a higher count, so that it does not
    change the order among the tags of any one count. *)
Lemma filter_sort_insert (c : Z) x ts :
  filter (fun t => Tag.count t = c) (sort_insert by_count_desc x ts) =
  filter (fun t => Tag.count t = c) (x :: ts).
Proof.
  induction ts as [|y ts IH]; [reflexivity|].
  simpl sort_insert. unfold by_count_desc at 1.
  destruct (Z.leb_spec (Tag.count y - Tag.count x) 0) as [Hle|Hgt];
    [reflexivity|].
  rewrite (filter_cons _ y), IH, !filter_cons.
  destruct (decide (Tag.count y = c)), (decide (Tag.count x = c));
    try reflexivity. lia.
Qed.

Lemma filter_Array_sort (c : Z) ts :
  filter (fun t => Tag.count t = c) (Array_sort by_count_desc ts) =
  filter (fun t => Tag.count t = c) ts.
Proof.
  induction ts as [|x ts IH]; [reflexivity|].
  simpl Array_sort. rewrite filter_sort_insert, !filter_cons, IH. reflexivity.
Qed.
End Popular.

(** X24: with a limit that is not negative, [getPopularTags] returns the
    first [limit] tags of the sorted array, or all of them when there are
    fewer; every tag it leaves out has a count that is at most the count of
    every tag it returns, and the tags returned with those left out are the
    tags of the store. *)
Theorem getPopularTags_returns_the_top (limit : Z) (s : State) :
  0 <= limit ->
  let '(top, s') := getPopularTags limit s in
  let rest := drop (Z.to_nat limit) (tags s') in
  length top = Nat.min (Z.to_nat limit) (length (tags s)) /\
  top ++ rest = tags s' /\
  top ++ rest ≡ₚ tags s /\
  forall t u, t ∈ top -> u ∈ rest -> Tag.count u <= Tag.count t.
Proof.
  intros Hl. unfold getPopularTags, slice0. simpl.
  destruct (Z.ltb_spec limit 0) as [Hneg|_]; [lia|].
  repeat apply conj.
  - rewrite length_take. f_equal.
    apply Permutation_length, Array_sort_perm.
  - apply take_drop.
  - rewrite take_drop. apply Array_sort_perm.
  - apply descending_split. rewrite take_drop. apply Array_sort_descending.
Qed.

Lemma getPopularTags_returns_the_top_witness :
  length (fst (getPopularTags 1 tagged)) = Nat.min 1 (length (tags tagged)).
Proof.
  pose proof (getPopularTags_returns_the_top 1 tagged ltac:(lia)) as H.
  destruct (getPopularTags 1 tagged) as [top s'].
  exact (proj1 H).
Defined.

(** X25: the sort of [getPopularTags] is stable: the tags that have one and
    the same count are, after the call, in the order in which the store
    held them before. *)
Theorem getPopularTags_keeps_ties_in_order (limit c : Z) (s : State) :
  filter (fun t => Tag.count t = c) (tags (snd (getPopularTags limit s))) =
  filter (fun t => Tag.count t = c) (tags s).
Proof. unfold getPopularTags. simpl. apply filter_Array_sort. Qed.

(** ** The word counter *)

Section Words.
Implicit Types (w r x cur : jsstring) (b : bool).

Lemma trimStart_ws r x : all_ws r -> trimStart (r ++ x) = trimStart x.
Proof.
  intros Hr. induction Hr as [|c r Hc _ IH]; [reflexivity|].
  simpl. now rewrite Hc.
Qed.

Lemma trimStart_all_ws r : all_ws r -> trimStart r = [].
Proof.
  intros Hr. rewrite <- (app_nil_r r). now rewrite trimStart_ws.
Qed.

Lemma trimStart_head c x :
  isWhiteSpace c = false -> trimStart (c :: x) = c :: x.
Proof. intros Hc. simpl. now rewrite Hc. Qed.

Lemma ends_word_app y x : ends_word x -> ends_word (y ++ x).
Proof.
  intros (pre & c & -> & Hc). exists (y ++ pre), c.
  split; [now rewrite app_assoc | exact Hc].
Qed.

Lemma ends_word_word w : w <> [] -> ws_free w -> ends_word w.
Proof.
  intros Hne Hw. destruct (exists_last Hne) as (pre & c & ->).
  exists pre, c. split; [reflexivity|].
  unfold ws_free in Hw. rewrite Forall_app, Forall_singleton in Hw. tauto.
Qed.

Lemma ends_word_runs w rest :
  w <> [] -> ws_free w -> runs_ok rest -> ends_word (w ++ join_runs rest).
Proof.
  intros Hne Hw Hrest. revert w Hne Hw.
  induction Hrest as [|[r w'] rest [_ [Hw1 Hw2]] _ IH]; intros w Hne Hw.
  - simpl. rewrite app_nil_r. now apply ends_word_word.
  - simpl. apply ends_word_app, ends_word_app. now apply IH.
Qed.

Lemma trim_core r1 x r2 :
  all_ws r1 -> all_ws r2 -> trimStart (x ++ r2) = x ++ r2 ->
  ends_word x -> trim (r1 ++ x ++ r2) = x.
Proof.
  intros H1 H2 Hx (pre & d & Hd & Hdw). unfold trim.
  rewrite trimStart_ws by exact H1. rewrite Hx.
  rewrite reverse_app. rewrite trimStart_ws.
  - rewrite Hd, reverse_app. simpl. rewrite Hdw.
    change (d :: reverse pre) with ([d] ++ reverse pre).
    rewrite reverse_app, reverse_involutive. reflexivity.
  - unfold all_ws in *. now apply Forall_reverse.
Qed.

Lemma split_word b cur w x :
  w <> [] -> ws_free w ->
  split_ws_from b cur (w ++ x) = split_ws_from false (cur ++ w) x.
Proof.
  intros Hne Hw. revert b cur. induction Hw as [|c w Hc Hw IH]; intros b cur.
  - contradiction.
  - simpl. rewrite Hc. destruct w as [|c' w].
    + reflexivity.
    + rewrite IH by discriminate. now rewrite <- app_assoc.
Qed.

Lemma split_run_inside r x :
  all_ws r -> split_ws_from true [] (r ++ x) = split_ws_from true [] x.
Proof.
  intros Hr. induction Hr as [|c r Hc _ IH]; [reflexivity|].
  simpl. now rewrite Hc.
Qed.

Lemma split_run cur r x :
  r <> [] -> all_ws r ->
  split_ws_from false cur (r ++ x) = cur :: split_ws_from true [] x.
Proof.
  intros Hne Hr. destruct Hr as [|c r Hc Hr]; [contradiction|].
  simpl. rewrite Hc. f_equal. now apply split_run_inside.
Qed.

Lemma split_runs cur rest :
  runs_ok rest ->
  split_ws_from false cur (join_runs rest) = cur :: (snd <$> rest).
Proof.
  intros H. revert cur.
  induction H as [|[r w] rest [[Hr1 Hr2] [Hw1 Hw2]] _ IH]; intros cur;
    [reflexivity|].
  simpl in *. rewrite split_run by assumption.
  rewrite split_word by assumption. f_equal. apply IH.
Qed.
End Words.

(** X26: the words that the counter of the editor counts.  For a text made
    of a first word and of runs of white space each followed by a word,
    with white space before and after or not, the pieces counted are
    exactly these words; for a text of white space only, the empty text
    among them, the counter shows one word.  The second number is the
    length of the whole text. *)
Theorem updateWordCount_counts_words
    (lead w trail : jsstring) (rest : list (jsstring * jsstring)) :
  all_ws lead -> w <> [] -> ws_free w -> runs_ok rest -> all_ws trail ->
  let text := lead ++ (w ++ join_runs rest) ++ trail in
  split_ws (trim text) = w :: (snd <$> rest) /\
  updateWordCount text = (S (length rest), length text) /\
  updateWordCount lead = (1%nat, length lead).
Proof.
  intros Hlead Hne Hw Hrest Htrail text.
  assert (Ht : trim text = w ++ join_runs rest).
  { subst text. apply trim_core; [exact Hlead | exact Htrail | |].
    - destruct w as [|c w']; [contradiction|].
      simpl. inversion Hw as [|? ? Hc _]. now rewrite Hc.
    - now apply ends_word_runs. }
  assert (Hs : split_ws (trim text) = w :: (snd <$> rest)).
  { rewrite Ht. unfold split_ws.
    rewrite split_word by assumption. simpl. now apply split_runs. }
  repeat apply conj.
  - exact Hs.
  - unfold updateWordCount. rewrite Hs. simpl. now rewrite length_fmap.
  - unfold updateWordCount, trim.
    rewrite (trimStart_all_ws lead Hlead). reflexivity.
Qed.

Lemma updateWordCount_counts_words_witness :
  updateWordCount (js "  two   words ") = (2%nat, 14%nat) /\
  updateWordCount [] = (1%nat, 0%nat).
Proof.
  assert (Hsp : isWhiteSpace 32 = true) by reflexivity.
  assert (H1 : all_ws (js "  ")) by (repeat constructor).
  assert (H2 : ws_free (js "two")) by (repeat constructor).
  assert (H3 : runs_ok [(js "   ", js "words")]).
  { constructor; [|constructor]. simpl.
    repeat split; try discriminate; repeat constructor. }
  assert (H4 : all_ws (js " ")) by (repeat constructor).
  destruct (updateWordCount_counts_words (js "  ") (js "two") (js " ")
              [(js "   ", js "words")] H1 ltac:(discriminate) H2 H3 H4)
    as (_ & Ha & _).
  destruct (updateWordCount_counts_words [] (js "two") []
              [] ltac:(constructor) ltac:(discriminate) H2
              ltac:(constructor) ltac:(constructor))
    as (_ & _ & Hb).
  split; [exact Ha | exact Hb].
Defined.

(** ** Export of the notes *)

(** X27: [exportData] changes no collection and writes nothing to the
    storage, whatever the type asked for.  The file of an export of type
    [notes], imported into any store, gives that store the exported notes,
    leaves its tasks and settings, keeps its folders with their counts
    computed again from the imported notes, so that the counts are right,
    and keeps its tag records. *)
Theorem notes_export_then_import
    (now : timestamp) (type : jsstring) (s t : State) :
  let file := fst (exportData now (js "notes") s) in
  let t' := importData (Some file) t in
  collections (snd (exportData now type s)) = collections s /\
  localStorage (snd (exportData now type s)) = localStorage s /\
  notes t' = notes s /\
  folders t' = recount (notes s) <$> folders t /\
  counts_ok t' /\
  tasks t' = tasks t /\ settings t' = settings t /\
  tags t' ≡ₚ tags t.
Proof.
  intros file t'.
  assert (Hfile : file = Json (mkPayload (Some (notes s)) None None None None
                                 (Some now))) by reflexivity.
  subst t'. rewrite Hfile. clear Hfile file. simpl importData.
  unfold counts_ok.
  rewrite applyImport_notes, applyImport_folders, applyImport_tasks,
    applyImport_settings, applyImport_tags.
  simpl. repeat apply conj; try reflexivity.
  - unfold exportData, showNotification, collections. simpl.
    destruct (notificationArea (document s)); reflexivity.
  - unfold exportData, showNotification. simpl.
    destruct (notificationArea (document s)); reflexivity.
  - apply recount_ok.
  - apply rendered_perm.
Qed.

(** ** Counts that follow the content and the notes *)

(** X28: an update that does not carry the empty content leaves the note it
    writes with a count equal to the length of its content, whatever the
    count was before: the content is the one of the update when it has
    one, and the one the note had otherwise. *)
Theorem updateNote_count_follows_content
    (now : timestamp) (i : jsstring) (u : Updates.t) (s : State)
    (index : nat) (old : Note.t) :
  findIndex (has_id i) (notes s) = Some index ->
  notes s !! index = Some old ->
  Updates.content u <> Some [] ->
  exists n, notes (updateNote now i u s) !! index = Some n /\
    Note.content n = default (Note.content old) (Updates.content u) /\
    Note.wordCount n = Z.of_nat (length (Note.content n)).
Proof.
  intros Hf Hl Hc. exists (merge now old u). split.
  - now apply updateNote_at_index.
  - unfold merge. simpl. destruct (Updates.content u) as [[|c cs]|];
      [contradiction | split; reflexivity | split; reflexivity].
Qed.

Lemma updateNote_count_follows_content_witness :
  exists n, notes (updateNote 1700000000100 (js "1700000000002")
                     (onlyContent (js "changed")) tagged) !! 1%nat = Some n /\
            Note.wordCount n = 7.
Proof.
  pose (old := Note.mk (js "1700000000002") (js "n2") (js "y") [js "b"] []
                 false 1700000000002 1700000000002 1).
  assert (Hf : findIndex (has_id (js "1700000000002")) (notes tagged)
               = Some 1%nat) by (vm_compute; reflexivity).
  assert (Hl : notes tagged !! 1%nat = Some old) by (vm_compute; reflexivity).
  destruct (updateNote_count_follows_content 1700000000100
              (js "1700000000002") (onlyContent (js "changed")) tagged 1 old
              Hf Hl ltac:(discriminate)) as (n & Hn & Hcn & Hw).
  exists n. split; [exact Hn|]. rewrite Hw, Hcn. reflexivity.
Defined.

(** X29: [createFolder] does not count: in a store whose counts are right,
    the counts are still right after it exactly when no note is filed under
    the id of the new folder; when notes are, the new folder shows 0 for
    them. *)
Theorem createFolder_count_is_not_computed
    (toLowerCase : jsstring -> jsstring) (name color : jsstring) (s : State) :
  counts_ok s ->
  let '(f, s') := createFolder toLowerCase name color s in
  Folder.count f = 0 /\
  (counts_ok s' <-> notes_in (notes s) (Folder.id f) = 0).
Proof.
  intros H. unfold createFolder, counts_ok in *. simpl.
  split; [reflexivity|]. rewrite Forall_app, Forall_singleton. simpl.
  split; [intros [_ E]; now symmetry | intros E; split; [exact H | now symmetry]].
Qed.

Lemma createFolder_count_is_not_computed_witness :
  ~ counts_ok (snd (createFolder asciiLower (js "Today") (js "#123") daily)).
Proof.
  assert (Hc : counts_ok daily).
  { unfold counts_ok.
    apply (bool_decide_eq_true_1
             (Forall (fun f => Folder.count f = notes_in (notes daily) (Folder.id f))
                (folders daily))).
    vm_compute. reflexivity. }
  pose proof (createFolder_count_is_not_computed asciiLower (js "Today")
                (js "#123") daily Hc) as H.
  destruct (createFolder asciiLower (js "Today") (js "#123") daily)
    as [f s'] eqn:E.
  destruct H as (_ & H). simpl. intros Hok. apply H in Hok.
  apply (f_equal fst) in E. simpl in E. rewrite <- E in Hok.
  vm_compute in Hok. discriminate Hok.
Defined.

(** ** The first completion *)

(** X30: a timer that is started from pause with a positive number of
    seconds left, no more than 2^53, completes when exactly that many
    seconds have elapsed: it is then running again, in mode [work], on the
    seconds of the break duration of the settings (taken within 2^53 too,
    so that the product of the source is exact). *)
Theorem first_completion (s : State) :
  timer_ok s -> pomodoroRunning s = false ->
  0 < pomodoroSeconds s <= 2 ^ 53 ->
  Z.abs (breakSeconds (settings s)) <= 2 ^ 53 ->
  let s' := elapse_n (Z.to_nat (pomodoroSeconds s)) (startPomodoro s) in
  pomodoroRunning s' = true /\ pomodoroMode s' = work /\
  pomodoroSeconds s' = breakSeconds (settings s).
Proof.
  intros H Hr [Hs _] _. apply run_to_completion; [exact Hr | | exact Hs].
  unfold timer_ok in H. now rewrite Hr in H.
Qed.

Lemma first_completion_witness :
  pomodoroMode (elapse_n 1500 (startPomodoro fresh)) = work /\
  pomodoroSeconds (elapse_n 1500 (startPomodoro fresh)) = 300.
Proof.
  assert (H0 : timer_ok fresh) by (vm_compute; reflexivity).
  assert (H1 : pomodoroRunning fresh = false) by (vm_compute; reflexivity).
  assert (H3 : 0 < pomodoroSeconds fresh <= 2 ^ 53)
    by (vm_compute; split; [reflexivity | discriminate]).
  assert (H4 : Z.abs (breakSeconds (settings fresh)) <= 2 ^ 53)
    by (vm_compute; discriminate).
  destruct (first_completion fresh H0 H1 H3 H4) as (_ & Hm & Hs).
  split.
  - exact Hm.
  - replace 300 with (breakSeconds (settings fresh)) by (vm_compute; reflexivity).
    exact Hs.
Defined.
